(** * news-terminal: the article scraper (src/news_terminal/scraper.py)

    A shallow embedding of [ArticleScraper] and the properties of its
    content-retrieval pipeline: primary scrape, title search on DuckDuckGo's
    HTML endpoint, and the sequential retry over the candidates.

    Python [str] values are lists of Unicode code points.  The network and
    the libraries the scraper calls (requests, BeautifulSoup's parsers,
    urllib.parse) are gathered in a record [World]; a network call is
    answered from the history of the requests made so far, so that two calls
    on one URL may differ, and every request is logged. *)

From Stdlib Require Import String Ascii.
From Stdlib Require Import List NArith ZArith Bool Lia Arith.
Import ListNotations.

Local Open Scope list_scope.

(** ** Python strings *)

Module PyStr.

(** A character is a code point; a [str] is a sequence of them. *)
Definition char := N.
Definition pystr := list char.

(** An ASCII literal of this file as a Python string. *)
Definition str (s : string) : pystr :=
  map N_of_ascii (list_ascii_of_string s).

Definition eqb (a b : pystr) : bool :=
  if list_eq_dec N.eq_dec a b then true else false.

(** [s.startswith(p)] *)
Fixpoint startswith (p s : pystr) : bool :=
  match p, s with
  | [], _ => true
  | _ :: _, [] => false
  | a :: p', b :: s' => N.eqb a b && startswith p' s'
  end.

(** [p in s] *)
Fixpoint contains (p s : pystr) : bool :=
  startswith p s ||
  match s with
  | [] => false
  | _ :: s' => contains p s'
  end.

(** [s.replace(old, new)] for a non-empty [old]: the occurrences are
    replaced from the left, without overlap.  [skip] counts the characters
    of the occurrence just replaced that are still to be passed. *)
Fixpoint replace_from (skip : nat) (old new s : pystr) : pystr :=
  match s with
  | [] => []
  | c :: s' =>
      match skip with
      | S k => replace_from k old new s'
      | O =>
          if startswith old s
          then new ++ replace_from (length old - 1) old new s'
          else c :: replace_from 0 old new s'
      end
  end.

Definition replace (old new s : pystr) : pystr := replace_from 0 old new s.

(** [sep.join(parts)] *)
Fixpoint join (sep : pystr) (parts : list pystr) : pystr :=
  match parts with
  | [] => []
  | [p] => p
  | p :: rest => p ++ sep ++ join sep rest
  end.

(** Truth value of a string: non-empty. *)
Definition truthy (s : pystr) : bool :=
  match s with [] => false | _ => true end.

(** ASCII part of the character tables of CPython. *)
Definition is_ascii (c : char) : bool := (c <? 128)%N.

Definition ascii_isalnum (c : char) : bool :=
  ((48 <=? c) && (c <=? 57) || (65 <=? c) && (c <=? 90)
   || (97 <=? c) && (c <=? 122))%N.

(** [_Py_ascii_whitespace]: TAB, LF, VT, FF, CR, FS, GS, RS, US, SPACE. *)
Definition ascii_isspace (c : char) : bool :=
  ((9 <=? c) && (c <=? 13) || (28 <=? c) && (c <=? 31) || (c =? 32))%N.

Definition ascii_lower (c : char) : char :=
  if ((65 <=? c) && (c <=? 90))%N then (c + 32)%N else c.

Definition underscore : char := 95%N.
Definition newline : char := 10%N.
Definition ampersand : char := 38%N.

End PyStr.

Import PyStr.

(** ** Exceptions and the outside world *)

(** The exceptions the libraries raise; all of them derive from Python's
    [Exception], which is what every [except Exception] of the scraper
    catches.  (Asynchronous [BaseException]s such as a keyboard interrupt are
    not part of this model.) *)
Inductive exn : Type :=
| RequestException      (* requests: connection error, timeout, invalid URL *)
| HTTPError             (* raise_for_status *)
| ParserError           (* BeautifulSoup / lxml *)
| ValueError            (* urllib.parse *)
| UnicodeError          (* urllib.parse.quote on a lone surrogate *)
| OtherException.

Inductive result (A : Type) : Type :=
| Ok (a : A)
| Raise (e : exn).
Arguments Ok {A} a.
Arguments Raise {A} e.

(** ** The element tree of BeautifulSoup *)

(** An attribute value is a string, or a list of strings for the
    multi-valued attributes ([class], [rel], ...). *)
Inductive attr_value : Type :=
| AStr (s : pystr)
| AList (l : list pystr).

(** A node of the tree: a text string, a string [get_text] leaves out
    (comment, doctype, ...), or a tag with its name, attributes and
    contents. *)
#[warnings="-register-all"]
Inductive node : Type :=
| Text (s : pystr)
| Comment (s : pystr)
| Element (name : pystr) (attrs : list (pystr * attr_value))
          (contents : list node).

(** [requests.Response], as far as the scraper reads it. *)
Record response : Type := mkResponse {
  status_code : Z;
  text : pystr
}.

(** A request the session sent: URL and timeout in seconds. *)
Definition request : Type := (pystr * Z)%type.

(** What the scraper does not compute itself. *)
Record World : Type := mkWorld {
  (** [session.get(url, timeout=t)], given the requests made before. *)
  http_get : list request -> pystr -> Z -> result response;
  (** [BeautifulSoup(markup, 'lxml')]: the top-level contents. *)
  parse_lxml : pystr -> result (list node);
  (** [BeautifulSoup(markup, 'html.parser')] *)
  parse_html_parser : pystr -> result (list node);
  (** [urllib.parse.quote], [urllib.parse.unquote] *)
  url_quote : pystr -> result pystr;
  url_unquote : pystr -> pystr;
  (** [urlparse(url).netloc] *)
  urlparse_netloc : pystr -> result pystr;
  (** Unicode tables beyond ASCII: [str.isalnum], [str.isspace] of one
      character, and the lower-casing of one character between the text
      before and after it (the capital sigma depends on both). *)
  unicode_isalnum : char -> bool;
  unicode_isspace : char -> bool;
  unicode_lower : pystr -> char -> pystr -> pystr
}.

(** ** Computations: a log of requests and exceptions *)

Module Run.

Definition state : Type := list request.

Definition M (A : Type) : Type := state -> result A * state.

Definition ret {A} (a : A) : M A := fun s => (Ok a, s).

Definition bind {A B} (m : M A) (k : A -> M B) : M B :=
  fun s =>
    match m s with
    | (Ok a, s') => k a s'
    | (Raise e, s') => (Raise e, s')
    end.

Definition raise {A} (e : exn) : M A := fun s => (Raise e, s).

(** A library call that returns or raises, without touching the log. *)
Definition lift {A} (r : result A) : M A := fun s => (r, s).

(** [try: body  except Exception: handler] *)
Definition try_except {A} (body handler : M A) : M A :=
  fun s =>
    match body s with
    | (Ok a, s') => (Ok a, s')
    | (Raise _, s') => handler s'
    end.

(** [session.get(url, timeout=t)] *)
Definition session_get (W : World) (url : pystr) (t : Z) : M response :=
  fun s => (http_get W s url t, s ++ [(url, t)]).

(** [response.raise_for_status()] *)
Definition raise_for_status (r : response) : M unit :=
  if ((400 <=? status_code r) && (status_code r <? 600))%Z
  then raise HTTPError
  else ret tt.

End Run.

Import Run.

Declare Scope run_scope.
Delimit Scope run_scope with run.
Notation "x <- m ;; k" := (bind m (fun x => k))
  (at level 61, m at next level, right associativity) : run_scope.
Notation "m ;; k" := (bind m (fun _ => k))
  (at level 61, right associativity) : run_scope.

Local Open Scope run_scope.

(** ** Character classes and case, per world *)

Section Characters.

Variable W : World.

(** [str.isspace] of one character; also [\s] of [re] and what
    [str.strip()] removes. *)
Definition is_space (c : char) : bool :=
  if is_ascii c then ascii_isspace c else unicode_isspace W c.

(** [str.isalnum] of one character. *)
Definition is_alnum (c : char) : bool :=
  if is_ascii c then ascii_isalnum c else unicode_isalnum W c.

(** [\w] of [re] on a [str] pattern: alphanumeric or the underscore. *)
Definition is_word (c : char) : bool :=
  is_alnum c || (c =? underscore)%N.

(** Lower-casing of the character [c] standing between [before] and
    [after]. *)
Definition lower_char (before : pystr) (c : char) (after : pystr) : pystr :=
  if is_ascii c then [ascii_lower c] else unicode_lower W before c after.

Fixpoint lower_from (before s : pystr) : pystr :=
  match s with
  | [] => []
  | c :: rest => lower_char before c rest ++ lower_from (before ++ [c]) rest
  end.

(** [s.lower()] *)
Definition lower (s : pystr) : pystr := lower_from [] s.

Fixpoint lstrip (s : pystr) : pystr :=
  match s with
  | [] => []
  | c :: rest => if is_space c then lstrip rest else s
  end.

(** [s.strip()] *)
Definition strip (s : pystr) : pystr := rev (lstrip (rev (lstrip s))).

End Characters.

(** ** Regular expressions of the scraper *)

Module Re.

(** [re.sub(cls, repl, s)] for a pattern that is one character class:
    every character of the class is replaced, the others are copied. *)
Definition sub_class (cls : char -> bool) (repl s : pystr) : pystr :=
  flat_map (fun c => if cls c then repl else [c]) s.

(** What a run of [k] newlines becomes under
    [re.sub(r'\n{3,}', '\n\n', _)]. *)
Definition emit_newlines (k : nat) : pystr :=
  if 3 <=? k then [newline; newline] else repeat newline k.

(** The scan of [re.sub(r'\n{3,}', '\n\n', s)], [run] newlines pending. *)
Fixpoint collapse_from (run : nat) (s : pystr) : pystr :=
  match s with
  | [] => emit_newlines run
  | c :: rest =>
      if (c =? newline)%N then collapse_from (S run) rest
      else emit_newlines run ++ c :: collapse_from 0 rest
  end.

Definition collapse_newlines (s : pystr) : pystr := collapse_from 0 s.

(** The longest prefix without [&]: the group [[^&]+] when non-empty. *)
Fixpoint until_ampersand (s : pystr) : pystr :=
  match s with
  | [] => []
  | c :: rest => if (c =? ampersand)%N then [] else c :: until_ampersand rest
  end.

(** [re.search(r'uddg=([^&]+)', s)]: group 1 of the leftmost match. *)
Fixpoint search_uddg (s : pystr) : option pystr :=
  match s with
  | [] => None
  | _ :: rest =>
      if startswith (str "uddg=") s
      then match until_ampersand (skipn 5 s) with
           | [] => search_uddg rest
           | g => Some g
           end
      else search_uddg rest
  end.

End Re.

(** ** Selecting in the tree *)

Module Soup.

(** The CSS selectors the scraper uses. *)
Inductive selector : Type :=
| SelTag (name : pystr)                     (* name *)
| SelClass (c : pystr)                      (* .c *)
| SelAttrContains (attr value : pystr)      (* [attr*="value"] *)
| SelAttrEquals (attr value : pystr)        (* [attr="value"] *)
| SelTagClass (name c : pystr).             (* name.c *)

(** [attrs.get(name)] *)
Fixpoint lookup_attr (name : pystr) (attrs : list (pystr * attr_value))
  : option attr_value :=
  match attrs with
  | [] => None
  | (k, v) :: rest => if eqb k name then Some v else lookup_attr name rest
  end.

(** The value a selector compares: a list is joined with spaces. *)
Definition attr_text (v : attr_value) : pystr :=
  match v with
  | AStr s => s
  | AList l => join (str " ") l
  end.

Definition css_whitespace (c : char) : bool :=
  ((c =? 32) || (c =? 9) || (c =? 13) || (c =? 10) || (c =? 12))%N.

(** The words of a string between CSS white space. *)
Fixpoint words (cur s : pystr) : list pystr :=
  match s with
  | [] => if truthy cur then [cur] else []
  | c :: rest =>
      if css_whitespace c
      then (if truthy cur then cur :: words [] rest else words [] rest)
      else words (cur ++ [c]) rest
  end.

(** The classes of an element. *)
Definition classes (attrs : list (pystr * attr_value)) : list pystr :=
  match lookup_attr (str "class") attrs with
  | None => []
  | Some (AList l) => l
  | Some (AStr s) => words [] s
  end.

Definition has_class (c : pystr) (attrs : list (pystr * attr_value)) : bool :=
  existsb (eqb c) (classes attrs).

(** An attribute test [=] is the pattern [^value$] under [match], which
    also accepts one final newline. *)
Definition attr_equals (value v : pystr) : bool :=
  eqb v value || eqb v (value ++ [newline]).

Definition matches (sel : selector) (name : pystr)
           (attrs : list (pystr * attr_value)) : bool :=
  match sel with
  | SelTag n => eqb name n
  | SelClass c => has_class c attrs
  | SelAttrContains a value =>
      match lookup_attr a attrs with
      | None => false
      | Some v => contains value (attr_text v)
      end
  | SelAttrEquals a value =>
      match lookup_attr a attrs with
      | None => false
      | Some v => attr_equals value (attr_text v)
      end
  | SelTagClass n c => eqb name n && has_class c attrs
  end.

Definition node_matches (sel : selector) (n : node) : bool :=
  match n with
  | Element name attrs _ => matches sel name attrs
  | _ => false
  end.

(** The nodes below [n], in document order. *)
Fixpoint descendants (n : node) : list node :=
  match n with
  | Element _ _ contents =>
      flat_map (fun c => c :: descendants c) contents
  | _ => []
  end.

(** [tag.select(selector)]: the tags below [tag] that match, in document
    order. *)
Definition select (sel : selector) (n : node) : list node :=
  filter (node_matches sel) (descendants n).

Definition named_in (names : list pystr) (n : node) : bool :=
  match n with
  | Element name _ _ => existsb (eqb name) names
  | _ => false
  end.

(** [tag.find_all(names)] *)
Definition find_all (names : list pystr) (n : node) : list node :=
  filter (named_in names) (descendants n).

(** [tag.find(name)], which is also [tag.name]: the first one or [None]. *)
Definition find (name : pystr) (n : node) : option node :=
  hd_error (find_all [name] n).

(** [element.decompose()] on every element of [soup.select(sel)]: the
    matching tags are cut out together with what they contain. *)
Fixpoint decompose_all (sel : selector) (n : node) : node :=
  match n with
  | Element name attrs contents =>
      Element name attrs
        ((fix go (l : list node) : list node :=
            match l with
            | [] => []
            | c :: rest =>
                if node_matches sel c then go rest
                else decompose_all sel c :: go rest
            end) contents)
  | _ => n
  end.

(** The text strings below [n] (and [n] itself when it is one). *)
Definition text_of (n : node) : list pystr :=
  match n with Text s => [s] | _ => [] end.

Definition all_strings (n : node) : list pystr :=
  flat_map text_of (descendants n).

(** [tag.get_text()] *)
Definition get_text (n : node) : pystr := concat (all_strings n).

(** [tag.get_text(separator=sep, strip=True)]: every string is stripped,
    the empty ones are dropped. *)
Definition get_text_strip (W : World) (sep : pystr) (n : node) : pystr :=
  join sep (filter truthy (map (strip W) (all_strings n))).

(** The [BeautifulSoup] object: a tag named [[document]]. *)
Definition document (contents : list node) : node :=
  Element (str "[document]") [] contents.

(** [tag.get(name, default)] *)
Definition get_attr (name : pystr) (default : attr_value) (n : node)
  : attr_value :=
  match n with
  | Element _ attrs _ =>
      match lookup_attr name attrs with
      | Some v => v
      | None => default
      end
  | _ => default
  end.

End Soup.

Import Soup.

(** ** ArticleScraper *)

Section ArticleScraper.

Variable W : World.

(** Common content selectors used by news sites. *)
Definition CONTENT_SELECTORS : list selector :=
  [ SelTag (str "article");
    SelAttrContains (str "class") (str "article-body");
    SelAttrContains (str "class") (str "article-content");
    SelAttrContains (str "class") (str "post-content");
    SelAttrContains (str "class") (str "entry-content");
    SelAttrContains (str "class") (str "story-body");
    SelAttrContains (str "class") (str "content-body");
    SelAttrEquals (str "itemprop") (str "articleBody");
    SelClass (str "article__body");
    SelClass (str "article-text");
    SelClass (str "story-content");
    SelTag (str "main") ].

(** Elements to remove. *)
Definition REMOVE_SELECTORS : list selector :=
  [ SelTag (str "script"); SelTag (str "style"); SelTag (str "nav");
    SelTag (str "header"); SelTag (str "footer"); SelTag (str "aside");
    SelClass (str "advertisement"); SelClass (str "ad");
    SelClass (str "ads"); SelClass (str "social-share");
    SelClass (str "related-articles"); SelClass (str "comments");
    SelClass (str "sidebar");
    SelAttrContains (str "class") (str "newsletter");
    SelAttrContains (str "class") (str "subscribe");
    SelAttrContains (str "class") (str "popup");
    SelAttrContains (str "class") (str "modal") ].

(** [max(x :: rest, key=key)]: the first element of greatest key. *)
Fixpoint py_max {A} (key : A -> nat) (best : A) (rest : list A) : A :=
  match rest with
  | [] => best
  | y :: rest' =>
      if key best <? key y then py_max key y rest'
      else py_max key best rest'
  end.

(** [_extract_text], the loop over the paragraphs. *)
Fixpoint paragraph_texts (paragraphs : list node) : list pystr :=
  match paragraphs with
  | [] => []
  | p :: rest =>
      let text := get_text_strip W [] p in
      if truthy text && (20 <? length text)
      then text :: paragraph_texts rest
      else paragraph_texts rest
  end.

(** Extract clean text from HTML element. *)
Definition _extract_text (element : node) : pystr :=
  let paragraphs :=
    find_all [str "p"; str "h2"; str "h3"; str "blockquote"] element in
  match paragraphs with
  | _ :: _ => join [newline; newline] (paragraph_texts paragraphs)
  | [] => Re.collapse_newlines (get_text_strip W [newline] element)
  end.

(** [_scrape_url], "Remove unwanted elements". *)
Definition remove_unwanted (soup : node) : node :=
  fold_left (fun s selector => decompose_all selector s)
            REMOVE_SELECTORS soup.

(** [_scrape_url], "Try to find main content": the loop over
    [CONTENT_SELECTORS] with its [break]; [None] when nothing matched. *)
Fixpoint find_main_content (selectors : list selector) (soup : node)
  : option node :=
  match selectors with
  | [] => None
  | selector :: rest =>
      match select selector soup with
      | x :: others => Some (py_max (fun x => length (get_text x)) x others)
      | [] => find_main_content rest soup
      end
  end.

(** The container [_extract_text] is called on.  A tag is always true
    ([Tag.__bool__]), so [not content] holds for [None] only. *)
Definition choose_content (soup : node) : node :=
  match find_main_content CONTENT_SELECTORS soup with
  | Some content => content
  | None =>
      match find (str "body") soup with
      | Some body => body
      | None => soup
      end
  end.

(** [_scrape_url] from the parse to the return, inside its [try]. *)
Definition extract_markup (markup : pystr) : M (option pystr) :=
  contents <- try_except (lift (parse_lxml W markup))
                         (lift (parse_html_parser W markup)) ;;
  let soup := remove_unwanted (document contents) in
  let content := choose_content soup in
  let text := _extract_text content in
  if length text <? 100 then ret None else ret (Some text).

(** Try to scrape content from a single URL. *)
Definition _scrape_url (url : pystr) : M (option pystr) :=
  if negb (truthy url) then ret None
  else
    try_except
      (response <- session_get W url 15 ;;
       raise_for_status response ;;
       extract_markup (text response))
      (ret None).

Definition skip_domains : list pystr :=
  [ str "youtube.com"; str "twitter.com"; str "facebook.com";
    str "instagram.com"; str "reddit.com"; str "wikipedia.org";
    str "amazon.com"; str "ebay.com" ].

Definition skip_segments : list pystr :=
  [ str "/search"; str "/category"; str "/tag/"; str "/author/" ].

Definition skip_patterns : list pystr := skip_domains ++ skip_segments.

(** Check if URL is likely a news article. *)
Definition _is_news_url (url : pystr) : bool :=
  negb (existsb (fun pattern => contains pattern (lower W url))
                skip_patterns).

(** Extract domain from URL. *)
Definition _get_domain (url : pystr) : M pystr :=
  try_except
    (netloc <- lift (urlparse_netloc W url) ;;
     ret (replace (str "www.") [] netloc))
    (ret (str "unknown")).

(** One turn of the loop over the result links: the list [urls] after
    the link was looked at.  [href] is a string, or [''] when the link has
    none; on a list value [re.search] or [startswith] raises. *)
Definition visit_link (link : node) (urls : list pystr)
  : result (list pystr) :=
  match get_attr (str "href") (AStr []) link with
  | AList _ => Raise OtherException
  | AStr href =>
      if contains (str "uddg=") href then
        match Re.search_uddg href with
        | Some group1 =>
            let actual_url := url_unquote W group1 in
            if _is_news_url actual_url
            then Ok (urls ++ [actual_url]) else Ok urls
        | None => Ok urls
        end
      else if startswith (str "http") href then
        if _is_news_url href then Ok (urls ++ [href]) else Ok urls
      else Ok urls
  end.

(** The loop over [soup.select('a.result__a')], limited to 5
    alternatives. *)
Fixpoint collect_urls (links : list node) (urls : list pystr)
  : result (list pystr) :=
  match links with
  | [] => Ok urls
  | link :: rest =>
      match visit_link link urls with
      | Raise e => Raise e
      | Ok urls' =>
          if 5 <=? length urls' then Ok urls'
          else collect_urls rest urls'
      end
  end.

(** The query sent to the search engine, before it is URL-encoded. *)
Definition search_query (title : pystr) : pystr :=
  firstn 100
    (Re.sub_class (fun c => negb (is_word W c || is_space W c)) [] title).

Definition search_text (title : pystr) : pystr :=
  search_query title ++ str " news".

(** Search for alternative sources using DuckDuckGo HTML. *)
Definition _search_alternative_sources (title : pystr) : M (list pystr) :=
  try_except
    (encoded_query <- lift (url_quote W (search_text title)) ;;
     let search_url :=
       str "https://html.duckduckgo.com/html/?q=" ++ encoded_query in
     response <- session_get W search_url 10 ;;
     raise_for_status response ;;
     contents <- lift (parse_lxml W (text response)) ;;
     let soup := document contents in
     lift (collect_urls (select (SelTagClass (str "a") (str "result__a"))
                                soup) []))
    (ret []).

(** Truth value of an optional string. *)
Definition truthy_opt (o : option pystr) : bool :=
  match o with
  | Some s => truthy s
  | None => false
  end.

(** [fetch_article], the loop over [alt_urls]: [Some] is the pair the
    loop returns from the function, [None] when it runs to its end. *)
Fixpoint try_alternatives (url : pystr) (alt_urls : list pystr)
  : M (option (option pystr * pystr)) :=
  match alt_urls with
  | [] => ret None
  | alt_url :: rest =>
      if negb (eqb alt_url url) then
        content <- _scrape_url alt_url ;;
        if truthy_opt content then
          domain <- _get_domain alt_url ;;
          ret (Some (content, str "alternative: " ++ domain))
        else try_alternatives url rest
      else try_alternatives url rest
  end.

(** Fetch article content, with fallback to alternative sources if
    blocked. *)
Definition fetch_article (url : pystr) (title : option pystr)
  : M (option pystr * pystr) :=
  content <- _scrape_url url ;;
  if truthy_opt content then ret (content, str "original")
  else
    returned <-
      (match title with
       | Some t =>
           if truthy t then
             alt_urls <- _search_alternative_sources t ;;
             try_alternatives url alt_urls
           else ret None
       | None => ret None
       end) ;;
    match returned with
    | Some r => ret r
    | None => ret (None, str "failed")
    end.

End ArticleScraper.

(** ** A small world to run the scraper in

    One site that answers 404, one article page, and a result page of the
    search engine with four links.  The library functions are simple
    stand-ins that agree with Python on the strings used below. *)

Module Demo.

Definition hex_digit (c : char) : option N :=
  if ((48 <=? c) && (c <=? 57))%N then Some (c - 48)%N
  else if ((65 <=? c) && (c <=? 70))%N then Some (c - 55)%N
  else if ((97 <=? c) && (c <=? 102))%N then Some (c - 87)%N
  else None.

(** Percent-decoding of ASCII escapes. *)
Fixpoint unquote (s : pystr) : pystr :=
  match s with
  | [] => []
  | c :: tl =>
      if (c =? 37)%N then
        match tl with
        | a :: b :: rest =>
            match hex_digit a, hex_digit b with
            | Some x, Some y => (16 * x + y)%N :: unquote rest
            | _, _ => c :: unquote tl
            end
        | _ => c :: unquote tl
        end
      else c :: unquote tl
  end.

(** Percent-encoding of the space. *)
Definition quote (s : pystr) : pystr :=
  flat_map (fun c => if (c =? 32)%N then str "%20" else [c]) s.

Fixpoint authority (s : pystr) : pystr :=
  match s with
  | [] => []
  | c :: rest =>
      if ((c =? 47) || (c =? 63) || (c =? 35))%N then []
      else c :: authority rest
  end.

(** The part between [//] and the next [/], [?] or [#]. *)
Fixpoint netloc (s : pystr) : pystr :=
  match s with
  | [] => []
  | _ :: rest =>
      if startswith (str "//") s then authority (skipn 2 s)
      else netloc rest
  end.

Definition missing_url : pystr := str "https://example.com/a".
Definition article_url : pystr := str "https://example.com/ok".
Definition other_url : pystr := str "https://mywww.example.com/story".
Definition teaser_url : pystr := str "https://example.com/teaser".

Definition article_markup : pystr := str "<article-page>".
Definition teaser_markup : pystr := str "<teaser-page>".
Definition results_markup : pystr := str "<result-page>".

Definition paragraph : pystr :=
  str "The council voted on Tuesday to extend the tram line to the harbour, ending a debate that had lasted for more than ten years.".

Definition article_page : list node :=
  [ Element (str "html") []
      [ Element (str "body") []
          [ Element (str "nav") [] [ Text (str "Home | World | Sport") ];
            Element (str "article") []
              [ Element (str "p") [] [ Text paragraph ];
                Element (str "p") [] [ Text (str "Read more") ] ] ] ] ].

Definition teaser_page : list node :=
  [ Element (str "html") []
      [ Element (str "body") []
          [ Element (str "p") []
              [ Text (str "Subscribe now to read the full story.") ] ] ] ].

Definition result_link (href : string) : node :=
  Element (str "a")
          [ (str "class", AList [str "result__a"]);
            (str "href", AStr (str href)) ]
          [ Text (str "result") ].

Definition results_page : list node :=
  [ Element (str "html") []
      [ Element (str "body") []
          [ result_link
              "//duckduckgo.com/l/?uddg=https%3A%2F%2Fexample.com%2Fa&rut=1";
            result_link
              "//duckduckgo.com/l/?uddg=https%3A%2F%2Fwww.youtube.com%2Fwatch&rut=2";
            result_link
              "//duckduckgo.com/l/?uddg=https%3A%2F%2Fmywww.example.com%2Fstory&rut=3";
            result_link "httpd.apache.org/docs/"
          ] ] ].

Definition get (log : list request) (url : pystr) (t : Z)
  : result response :=
  if eqb url article_url || eqb url other_url
  then Ok (mkResponse 200 article_markup)
  else if eqb url teaser_url then Ok (mkResponse 200 teaser_markup)
  else if startswith (str "https://html.duckduckgo.com/html/?q=") url
  then Ok (mkResponse 200 results_markup)
  else if eqb url missing_url then Ok (mkResponse 404 [])
  else Raise RequestException.

Definition parse (markup : pystr) : result (list node) :=
  if eqb markup article_markup then Ok article_page
  else if eqb markup teaser_markup then Ok teaser_page
  else if eqb markup results_markup then Ok results_page
  else Ok [].

Definition world : World :=
  {| http_get := get;
     parse_lxml := parse;
     parse_html_parser := parse;
     url_quote := fun s => Ok (quote s);
     url_unquote := unquote;
     urlparse_netloc := fun s => Ok (netloc s);
     unicode_isalnum := fun _ => false;
     unicode_isspace := fun _ => false;
     unicode_lower := fun _ c _ => [c] |}.

Definition title : pystr := str "Tram line: council votes!".

(** The same world without a network. *)
Definition offline : World :=
  {| http_get := fun _ _ _ => Raise RequestException;
     parse_lxml := parse;
     parse_html_parser := parse;
     url_quote := fun s => Ok (quote s);
     url_unquote := unquote;
     urlparse_netloc := fun s => Ok (netloc s);
     unicode_isalnum := fun _ => false;
     unicode_isspace := fun _ => false;
     unicode_lower := fun _ c _ => [c] |}.

End Demo.

(** ** Vocabulary of the properties *)

(** Text length of an element, the key of the selection. *)
Definition text_length (n : node) : nat := length (get_text n).

(** [selector] is the first of [selectors] that matches in [soup]. *)
Definition first_matching (selectors : list selector) (selector : selector)
           (soup : node) : Prop :=
  exists before after,
    selectors = before ++ selector :: after /\
    Forall (fun s => select s soup = []) before /\
    select selector soup <> [].

(** The element at index [i] is longer than every other element. *)
Definition strictly_longest (l : list node) (i : nat) : Prop :=
  forall j e, j <> i -> nth_error l j = Some e ->
              forall c, nth_error l i = Some c ->
                        text_length e < text_length c.

(** The element at index [i] is the first of greatest length. *)
Definition first_longest (l : list node) (i : nat) : Prop :=
  forall c, nth_error l i = Some c ->
    (forall j e, nth_error l j = Some e -> text_length e <= text_length c) /\
    (forall j e, j < i -> nth_error l j = Some e ->
                 text_length e < text_length c).

(** A host with its leading [www.] taken off, and nothing else. *)
Definition strip_leading_www (host : pystr) : pystr :=
  if startswith (str "www.") host then skipn 4 host else host.

(** [host] and [path] are consecutive parts of the text of [url]. *)
Definition url_parts (url host path : pystr) : Prop :=
  exists before after, url = before ++ host ++ path ++ after.

(** [host] is [domain] or one of its subdomains, whatever the case. *)
Definition host_in_domain (domain host : pystr) : Prop :=
  map ascii_lower host = domain \/
  exists sub, map ascii_lower host = sub ++ str "." ++ domain.

(** [pattern] occurs in [url] up to the case of ASCII letters. *)
Definition occurs_nocase (pattern url : pystr) : Prop :=
  exists a m b, url = a ++ m ++ b /\ map ascii_lower m = pattern.

(** What follows a [uddg=] that carries no value: nothing, or [&]. *)
Definition no_value (r : pystr) : Prop :=
  r = [] \/ exists r', r = ampersand :: r'.

(** An absolute HTTP or HTTPS URL, by its scheme. *)
Definition is_absolute_http (url : pystr) : bool :=
  startswith (str "http://") url || startswith (str "https://") url.

(** The URLs one result link contributes. *)
Definition candidates (W : World) (link : node) : list pystr :=
  match visit_link W link [] with
  | Ok l => l
  | Raise _ => []
  end.

(** The address of the result page for an encoded query. *)
Definition search_url (encoded_query : pystr) : pystr :=
  str "https://html.duckduckgo.com/html/?q=" ++ encoded_query.

(** The result links of a parsed result page. *)
Definition result_links (contents : list node) : list node :=
  select (SelTagClass (str "a") (str "result__a")) (document contents).

(** A failure of the network, of the parser or of the loop during the
    search on [title]. *)
Definition search_failure (W : World) (title : pystr) (s : state) : Prop :=
  match url_quote W (search_text W title) with
  | Raise _ => True
  | Ok q =>
      match http_get W s (search_url q) 10 with
      | Raise _ => True
      | Ok resp =>
          ((400 <=? status_code resp) && (status_code resp <? 600))%Z = true
          \/ match parse_lxml W (text resp) with
             | Raise _ => True
             | Ok contents =>
                 exists e,
                   collect_urls W (result_links contents) [] = Raise e
             end
      end
  end.

(** Two article elements of equal text length. *)
Definition twin_articles : node :=
  document
    [ Element (str "html") []
        [ Element (str "body") []
            [ Element (str "article") [] [ Text (str "first story") ];
              Element (str "article") [] [ Text (str "other story") ] ] ] ].

(** ** What the screens show of a result (simple.py, main.py) *)

Module Screen.

(** [show_article_detail] and [ArticleDetail.compose]: the text shown after
    "Content from:", when the label starts with [alternative]. *)
Definition content_from (source_info : pystr) : option pystr :=
  if startswith (str "alternative") source_info
  then Some (replace (str "alternative: ") [] source_info)
  else None.

Definition truncated_note : pystr :=
  [newline; newline]
  ++ str "[...truncated, open in browser for full article]".

(** [show_article_detail] of simple.py: the body appended for [content];
    [None] when the description and the note that the article could not be
    fetched are shown in its place. *)
Definition shown_content (content : option pystr) : option pystr :=
  match content with
  | Some c =>
      if truthy c
      then Some (if 2000 <? length c
                 then firstn 2000 c ++ truncated_note
                 else c)
      else None
  | None => None
  end.

End Screen.

(** ** The selection of NewsTerminalUI (ui.py) *)

Module UI.

Section NewsTerminalUI.

(** The articles are only stored and handed back. *)
Variable article : Type.

(** The fields of [NewsTerminalUI] the navigation reads and writes. *)
Record ui : Type := mkUI {
  current_category : pystr;
  selected_index : Z;
  articles : list article
}.

Definition category_names : list (pystr * pystr) :=
  [ (str "1", str "TOP HEADLINES");
    (str "2", str "BUSINESS");
    (str "3", str "TECHNOLOGY");
    (str "4", str "SPORTS");
    (str "5", str "HEALTH") ].

(** [__init__] *)
Definition init : ui := mkUI (str "1") 0 [].

(** Move selection up. *)
Definition navigate_up (u : ui) : ui :=
  if (0 <? selected_index u)%Z
  then mkUI (current_category u) (selected_index u - 1) (articles u)
  else u.

(** Move selection down. *)
Definition navigate_down (u : ui) : ui :=
  if (selected_index u <? Z.of_nat (length (articles u)) - 1)%Z
  then mkUI (current_category u) (selected_index u + 1) (articles u)
  else u.

(** Get currently selected article. *)
Definition get_selected_article (u : ui) : option article :=
  if ((0 <=? selected_index u)
      && (selected_index u <? Z.of_nat (length (articles u))))%Z
  then nth_error (articles u) (Z.to_nat (selected_index u))
  else None.

(** Set current category and reset selection. *)
Definition set_category (u : ui) (category : pystr) : ui :=
  if existsb (fun entry => eqb (fst entry) category) category_names
  then mkUI category 0 (articles u)
  else u.

(** [render_articles], its assignment [self.articles = articles]. *)
Definition store_articles (u : ui) (l : list article) : ui :=
  mkUI (current_category u) (selected_index u) l.

(** A key press of the navigation. *)
Inductive key : Type :=
| KeyUp
| KeyDown
| KeyCategory (category : pystr).

Definition press (u : ui) (k : key) : ui :=
  match k with
  | KeyUp => navigate_up u
  | KeyDown => navigate_down u
  | KeyCategory category => set_category u category
  end.

(** The selection points at an article; on an empty list it is 0. *)
Definition selection_ok (u : ui) : Prop :=
  (0 <= selected_index u)%Z /\
  ((selected_index u < Z.of_nat (length (articles u)))%Z \/
   selected_index u = 0%Z).

End NewsTerminalUI.

End UI.

(** ** Python values read from JSON (api.py, config.py) *)

Module Py.

(** A value of a JSON document as Python holds it.  Of a number the code
    only reads the truth value and hands the number on. *)
#[warnings="-register-all"]
Inductive value : Type :=
| VNone
| VBool (b : bool)
| VNumber (nonzero : bool) (literal : pystr)
| VStr (s : pystr)
| VList (l : list value)
| VDict (d : list (pystr * value)).

(** A [dict] with string keys, in the order of insertion. *)
Definition dict : Type := list (pystr * value).

(** Truth value. *)
Definition truth (v : value) : bool :=
  match v with
  | VNone => false
  | VBool b => b
  | VNumber nonzero _ => nonzero
  | VStr s => truthy s
  | VList l => match l with [] => false | _ => true end
  | VDict d => match d with [] => false | _ => true end
  end.

Fixpoint lookup (d : dict) (key : pystr) : option value :=
  match d with
  | [] => None
  | (k, v) :: rest => if eqb k key then Some v else lookup rest key
  end.

(** [d.get(key, default)] *)
Definition get (d : dict) (key : pystr) (default : value) : value :=
  match lookup d key with
  | Some v => v
  | None => default
  end.

(** The exceptions of this part of the program. *)
Inductive error : Type :=
| AttributeError
| ValueErrorRaised
| JSONDecodeError
| UnicodeDecodeError
| IOError
| EOFError.

End Py.

(** ** The API key (config.py) *)

Module Config.

(** What the path [CONFIG_FILE] holds for this process: nothing, a file
    it cannot open for reading, a readable file of bytes that are no text,
    or a readable text, which is a JSON document or is not.  (The
    directory is the one the package was imported from, so it can be
    searched.) *)
Inductive file : Type :=
| Absent
| Unreadable
| Undecodable
| Text (document : option Py.value).

(** The machine as [config.py] meets it: the file; whether the file that
    exists may be opened for writing; whether a file may be created at the
    path and whether the file may be unlinked (both are matters of the
    directory); whether a file this process creates can afterwards be
    read and written by it (the umask); the lines waiting on standard
    input and what was printed. *)
Record sys : Type := mkSys {
  config_file : file;
  writable : bool;
  creatable : bool;
  removable : bool;
  created_readable : bool;
  created_writable : bool;
  stdin : list pystr;
  stdout : list pystr
}.

(** The machine with another file at the path. *)
Definition with_file (s : sys) (f : file) (w : bool) : sys :=
  mkSys f w (creatable s) (removable s) (created_readable s)
        (created_writable s) (stdin s) (stdout s).

(** The machine with other input and output. *)
Definition with_console (s : sys) (i o : list pystr) : sys :=
  mkSys (config_file s) (writable s) (creatable s) (removable s)
        (created_readable s) (created_writable s) i o.

Definition IO (A : Type) : Type := sys -> (A + Py.error) * sys.

Definition pure {A} (a : A) : IO A := fun s => (inl a, s).

Definition fail {A} (e : Py.error) : IO A := fun s => (inr e, s).

Definition and_then {A B} (m : IO A) (k : A -> IO B) : IO B :=
  fun s =>
    match m s with
    | (inl a, s') => k a s'
    | (inr e, s') => (inr e, s')
    end.

(** [try: body  except (json.JSONDecodeError, IOError): handler] *)
Definition except_decode_or_io {A} (body handler : IO A) : IO A :=
  fun s =>
    match body s with
    | (inr Py.JSONDecodeError, s') => handler s'
    | (inr Py.IOError, s') => handler s'
    | other => other
    end.

(** [print(line)] *)
Definition print (line : pystr) : IO unit :=
  fun s => (inl tt, with_console s (stdin s) (stdout s ++ [line])).

(** [input(prompt)] *)
Definition input (prompt : pystr) : IO pystr :=
  fun s =>
    match stdin s with
    | [] =>
        (inr Py.EOFError, with_console s (stdin s) (stdout s ++ [prompt]))
    | line :: rest =>
        (inl line, with_console s rest (stdout s ++ [prompt]))
    end.

(** [json.load(open(CONFIG_FILE, "r"))] *)
Definition load : IO Py.value :=
  fun s =>
    match config_file s with
    | Absent => (inr Py.IOError, s)
    | Unreadable => (inr Py.IOError, s)
    | Undecodable => (inr Py.UnicodeDecodeError, s)
    | Text None => (inr Py.JSONDecodeError, s)
    | Text (Some v) => (inl v, s)
    end.

(** [json.dump(config, open(CONFIG_FILE, "w"), indent=2)].  Opening for
    writing keeps the permissions of a file that exists: what could not be
    read before cannot be read after.  A missing file is created when the
    directory allows it, with the permissions the umask leaves. *)
Definition dump (config : Py.value) : IO unit :=
  fun s =>
    match config_file s with
    | Absent =>
        if creatable s
        then (inl tt,
              with_file s
                (if created_readable s then Text (Some config)
                 else Unreadable)
                (created_writable s))
        else (inr Py.IOError, s)
    | Unreadable =>
        if writable s then (inl tt, s) else (inr Py.IOError, s)
    | Undecodable | Text _ =>
        if writable s
        then (inl tt, with_file s (Text (Some config)) (writable s))
        else (inr Py.IOError, s)
    end.


(** [CONFIG_FILE.exists()] *)
Definition exists_ (s : sys) : bool :=
  match config_file s with
  | Absent => false
  | _ => true
  end.

(** Save API key to config file. *)
Definition save_api_key (api_key : pystr) : IO unit :=
  dump (Py.VDict [(str "api_key", Py.VStr api_key)]).


Definition rule : pystr := repeat 61%N 60.

(** The lines printed before the prompt. *)
Definition welcome : list pystr :=
  [ [newline] ++ rule;
    str "  WELCOME TO NEWS TERMINAL";
    rule;
    [newline] ++ str "To use this application, you need a NewsAPI key.";
    str "Get your FREE API key at: https://newsapi.org/register";
    [] ].

Definition saved_message : pystr :=
  [newline; 10003%N] ++ str " API key saved successfully!" ++ [newline].

Fixpoint print_all (lines : list pystr) : IO unit :=
  match lines with
  | [] => pure tt
  | line :: rest => and_then (print line) (fun _ => print_all rest)
  end.

(** [get_api_key], the part that reads the file: the stored key, or
    [None] when the function goes on to the prompt. *)
Definition stored_key : IO (option Py.value) :=
  fun s =>
    if exists_ s then
      except_decode_or_io
        (and_then load (fun config =>
           match config with
           | Py.VDict d =>
               if Py.truth (Py.get d (str "api_key") Py.VNone)
               then match Py.lookup d (str "api_key") with
                    | Some v => pure (Some v)
                    | None => pure None
                    end
               else pure None
           | _ => fail Py.AttributeError
           end))
        (pure None) s
    else pure None s.

(** Get API key from config file or prompt user to enter one. *)
Definition get_api_key (W : World) : IO Py.value :=
  and_then stored_key (fun stored =>
    match stored with
    | Some v => pure v
    | None =>
        and_then (print_all welcome) (fun _ =>
        and_then (input (str "Enter your NewsAPI key: ")) (fun line =>
          let api_key := strip W line in
          if truthy api_key then
            and_then (save_api_key api_key) (fun _ =>
            and_then (print saved_message) (fun _ =>
            pure (Py.VStr api_key)))
          else fail Py.ValueErrorRaised))
    end).

End Config.

(** ** Formatting an article (api.py) *)

Module Api.

Section FormatArticle.

(** [datetime.fromisoformat(text).strftime(...)] with the format of
    [format_article]; [None] when [fromisoformat] raises [ValueError]. *)
Variable format_time : pystr -> option pystr.

(** [format_article], the value for the key [published]. *)
Definition published_of (article : Py.dict) : Py.value + Py.error :=
  let published := Py.get article (str "publishedAt") (Py.VStr []) in
  if Py.truth published then
    match published with
    | Py.VStr p =>
        match format_time (replace (str "Z") (str "+00:00") p) with
        | Some shown => inl (Py.VStr shown)
        | None => inl published
        end
    | _ => inr Py.AttributeError
    end
  else inl published.

(** [article.get("source", {}).get("name", "Unknown")] *)
Definition source_of (article : Py.dict) : Py.value + Py.error :=
  match Py.get article (str "source") (Py.VDict []) with
  | Py.VDict d => inl (Py.get d (str "name") (Py.VStr (str "Unknown")))
  | _ => inr Py.AttributeError
  end.

(** Format article data for display. *)
Definition format_article (article : Py.dict) : Py.dict + Py.error :=
  match published_of article with
  | inr e => inr e
  | inl published =>
      match source_of article with
      | inr e => inr e
      | inl source =>
          inl [ (str "title",
                 Py.get article (str "title") (Py.VStr (str "No title")));
                (str "description",
                 Py.get article (str "description")
                        (Py.VStr (str "No description available.")));
                (str "source", source);
                (str "url", Py.get article (str "url") (Py.VStr []));
                (str "published", published);
                (str "author",
                 Py.get article (str "author") (Py.VStr (str "Unknown")));
                (str "content",
                 Py.get article (str "content") (Py.VStr [])) ]
      end
  end.

End FormatArticle.

End Api.

(** ** Samples for the parts beside the scraper *)

Module Sample.

(** A machine without a config file, with one line typed in. *)
Definition machine : Config.sys :=
  Config.mkSys Config.Absent true true true true true
               [str "  abc123  "] [].

(** A machine whose config file can be written but not read. *)
Definition write_only_machine : Config.sys :=
  Config.mkSys Config.Unreadable true true true true true
               [str "abc123"] [].


(** A machine whose config file holds a JSON list. *)
Definition odd_machine : Config.sys :=
  Config.mkSys (Config.Text (Some (Py.VList []))) true true true true true
               [] [].

(** An article as the API sends it. *)
Definition article : Py.dict :=
  [ (str "source",
     Py.VDict [(str "id", Py.VNone); (str "name", Py.VStr (str "Example News"))]);
    (str "author", Py.VNone);
    (str "title", Py.VStr (str "Council votes to extend the tram line"));
    (str "url", Py.VStr (str "https://example.com/a"));
    (str "publishedAt", Py.VStr (str "yesterday")) ].

(** A clock that parses nothing. *)
Definition no_time (t : pystr) : option pystr := None.

Definition article_element : node :=
  Element (str "article") []
    [ Element (str "p") [] [ Text Demo.paragraph ];
      Element (str "p") [] [ Text (str "Read more") ] ].

(** Three articles, the second selected. *)
Definition screen : UI.ui nat :=
  UI.mkUI nat (str "1") 1 [10; 20; 30].

(** A page that only the second parser reads. *)
Definition fragile_markup : pystr := str "<fragile>".

Definition strict_parse (markup : pystr) : result (list node) :=
  if eqb markup fragile_markup then Raise ParserError else Demo.parse markup.

Definition lenient_parse (markup : pystr) : result (list node) :=
  if eqb markup fragile_markup then Ok Demo.article_page
  else Demo.parse markup.

Definition get (log : list request) (url : pystr) (t : Z)
  : result response :=
  if eqb url Demo.article_url then Ok (mkResponse 200 fragile_markup)
  else Demo.get log url t.

(** The small world with the two parsers disagreeing on one page. *)
Definition world : World :=
  {| http_get := get;
     parse_lxml := strict_parse;
     parse_html_parser := lenient_parse;
     url_quote := fun s => Ok (Demo.quote s);
     url_unquote := Demo.unquote;
     urlparse_netloc := fun s => Ok (Demo.netloc s);
     unicode_isalnum := fun _ => false;
     unicode_isspace := fun _ => false;
     unicode_lower := fun _ c _ => [c] |}.

(** [urlparse] drops TAB, LF and CR from a URL before it splits it. *)
Definition unsafe (c : char) : bool :=
  ((c =? 9) || (c =? 10) || (c =? 13))%N.

Definition netloc (url : pystr) : pystr :=
  Demo.netloc (filter (fun c => negb (unsafe c)) url).

(** A result page whose one link wraps a URL with a TAB in its host. *)
Definition tab_markup : pystr := str "<tab-results>".

Definition tab_results : list node :=
  [ Element (str "html") []
      [ Element (str "body") []
          [ Demo.result_link
              "//duckduckgo.com/l/?uddg=https%3A%2F%2Fyou%09tube.com%2Fwatch&rut=1"
          ] ] ].

Definition tab_url : pystr :=
  str "https://you" ++ [9%N] ++ str "tube.com/watch".

Definition tab_world : World :=
  {| http_get := fun _ url _ =>
       if startswith (str "https://html.duckduckgo.com/html/?q=") url
       then Ok (mkResponse 200 tab_markup)
       else Raise RequestException;
     parse_lxml := fun markup =>
       if eqb markup tab_markup then Ok tab_results else Ok [];
     parse_html_parser := fun markup =>
       if eqb markup tab_markup then Ok tab_results else Ok [];
     url_quote := fun s => Ok (Demo.quote s);
     url_unquote := Demo.unquote;
     urlparse_netloc := fun s => Ok (netloc s);
     unicode_isalnum := fun _ => false;
     unicode_isspace := fun _ => false;
     unicode_lower := fun _ c _ => [c] |}.

End Sample.

(** ** More vocabulary *)

(** The article has no [source], or an object as its [source]. *)
Definition source_ok (article : Py.dict) : Prop :=
  match Py.lookup article (str "source") with
  | None => True
  | Some (Py.VDict _) => True
  | Some _ => False
  end.

(** The article has no [publishedAt], or a string, or a false value. *)
Definition published_ok (article : Py.dict) : Prop :=
  match Py.get article (str "publishedAt") (Py.VStr []) with
  | Py.VStr _ => True
  | v => Py.truth v = false
  end.

(** The keys [format_article] copies, with their defaults. *)
Definition copied_fields : list (pystr * pystr) :=
  [ (str "title", str "No title");
    (str "description", str "No description available.");
    (str "url", []);
    (str "author", str "Unknown");
    (str "content", []) ].


(** The config file can be written: the file that exists may be opened
    for writing, or a missing one may be created. *)
Definition can_write (s : Config.sys) : Prop :=
  match Config.config_file s with
  | Config.Absent => Config.creatable s = true
  | _ => Config.writable s = true
  end.

(** After a write the file can be read: it could be read before, or it
    is created readable. *)
Definition readable_after_write (s : Config.sys) : Prop :=
  match Config.config_file s with
  | Config.Absent => Config.created_readable s = true
  | Config.Unreadable => False
  | _ => True
  end.

(** The file that holds [api_key]. *)
Definition key_file (api_key : pystr) : Config.file :=
  Config.Text (Some (Py.VDict [(str "api_key", Py.VStr api_key)])).

(** The file gives no key: it is missing, cannot be opened, or is no
    JSON document. *)
Definition no_document (f : Config.file) : Prop :=
  f = Config.Absent \/ f = Config.Unreadable \/ f = Config.Text None.


(** The seconds of timeout a list of requests may take in all. *)
Definition timeouts (l : list request) : Z :=
  fold_right Z.add 0%Z (map snd l).

(** The request for an article page. *)
Definition page_request (url : pystr) : request := (url, 15%Z).

(** The candidates the loop of [fetch_article] asks for: not the primary
    url, and not the empty string, which [_scrape_url] refuses at once. *)
Definition requested (url : pystr) (alt_urls : list pystr) : list pystr :=
  filter (fun u => negb (eqb u url) && truthy u) alt_urls.

(** Every candidate of [before] that is not the primary url was scraped,
    after the requests for the candidates in front of it, and gave no
    text. *)
Definition failed_before (W : World) (url : pystr) (s : state)
           (before : list pystr) : Prop :=
  forall pre x post,
    before = pre ++ x :: post ->
    x <> url ->
    _scrape_url W x (s ++ map page_request (requested url pre))
    = (Ok None, s ++ map page_request (requested url (pre ++ [x]))).

Definition triple_newline : pystr := [newline; newline; newline].

(** A text without white space at either end. *)
Definition trimmed (W : World) (b : pystr) : Prop :=
  match b with
  | [] => True
  | c :: _ => is_space W c = false /\ is_space W (last b c) = false
  end.

(** The contents of a tag after [decompose_all]. *)
Definition decompose_contents (sel : selector) (l : list node) : list node :=
  flat_map (fun c => if node_matches sel c then []
                     else [decompose_all sel c]) l.

(** Induction on a tree, with the property at hand for the contents. *)
Fixpoint node_nested_ind (P : node -> Prop)
         (HText : forall s, P (Text s))
         (HComment : forall s, P (Comment s))
         (HElement : forall name attrs contents,
             Forall P contents -> P (Element name attrs contents))
         (n : node) : P n :=
  match n with
  | Text s => HText s
  | Comment s => HComment s
  | Element name attrs contents =>
      HElement name attrs contents
        ((fix all (l : list node) : Forall P l :=
            match l with
            | [] => Forall_nil P
            | c :: r =>
                Forall_cons c
                  (node_nested_ind P HText HComment HElement c) (all r)
            end) contents)
  end.

(** Runs in the small world. *)

Example demo_primary :
  fetch_article Demo.world Demo.article_url None []
  = (Ok (Some Demo.paragraph, str "original"), [(Demo.article_url, 15%Z)]).
Proof. vm_compute. reflexivity. Qed.

Example demo_fallback :
  fetch_article Demo.world Demo.missing_url (Some Demo.title) []
  = (Ok (Some Demo.paragraph, str "alternative: myexample.com"),
     [ (Demo.missing_url, 15%Z);
       (str "https://html.duckduckgo.com/html/?q=Tram%20line%20council%20votes%20news", 10%Z);
       (Demo.other_url, 15%Z) ]).
Proof. vm_compute. reflexivity. Qed.

Example demo_teaser :
  fetch_article Demo.world Demo.teaser_url None []
  = (Ok (None, str "failed"), [(Demo.teaser_url, 15%Z)]).
Proof. vm_compute. reflexivity. Qed.

(** * Properties *)

(** ** Strings *)

Lemma eqb_eq a b : eqb a b = true <-> a = b.
Proof.
  unfold eqb. destruct (list_eq_dec N.eq_dec a b); split; congruence.
Qed.

Lemma eqb_refl a : eqb a a = true.
Proof. now apply eqb_eq. Qed.

Lemma eqb_neq a b : eqb a b = false <-> a <> b.
Proof.
  unfold eqb. destruct (list_eq_dec N.eq_dec a b); split; congruence.
Qed.

(** ** Exceptions never leave the scraper *)

Section Totality.

Variable W : World.

Lemma try_except_ret {A} (body : M A) (x : A) s :
  exists a s', try_except body (ret x) s = (Ok a, s').
Proof.
  unfold try_except, ret. destruct (body s) as [[a | e] s']; eauto.
Qed.

Lemma scrape_url_returns url s :
  exists o s', _scrape_url W url s = (Ok o, s').
Proof.
  unfold _scrape_url. destruct (negb (truthy url)).
  - unfold ret. eauto.
  - apply try_except_ret.
Qed.

Lemma search_returns title s :
  exists l s', _search_alternative_sources W title s = (Ok l, s').
Proof. apply try_except_ret. Qed.

Lemma get_domain_returns url s :
  exists d, _get_domain W url s = (Ok d, s).
Proof.
  unfold _get_domain, try_except, bind, lift, ret.
  destruct (urlparse_netloc W url); eauto.
Qed.

(** The loop over the alternatives returns a pair labelled
    [alternative: domain], or runs to its end. *)
Lemma try_alternatives_returns url alt_urls :
  forall s,
  exists r s', try_alternatives W url alt_urls s = (Ok r, s') /\
    (r = None \/
     exists t domain, r = Some (Some t, str "alternative: " ++ domain)).
Proof.
  induction alt_urls as [| alt_url rest IH]; intros s; simpl.
  - unfold ret. eauto.
  - destruct (negb (eqb alt_url url)); [| apply IH].
    unfold bind at 1.
    destruct (scrape_url_returns alt_url s) as (o & s1 & ->).
    destruct o as [t |]; simpl; [destruct (truthy t) |]; try apply IH.
    unfold bind, ret.
    destruct (get_domain_returns alt_url s1) as (d & ->).
    do 2 eexists. split; [reflexivity | right; eauto].
Qed.

End Totality.

Section Retrieval.

Variable W : World.

(** C1.  For every url and every title, present or absent,
    [fetch_article] raises no exception: it returns a pair of an optional
    text and a label, and the label is [original] (with a text),
    [alternative: domain] (with a text) or [failed] (without one). *)
Theorem C1_fetch_article_always_returns (url : pystr)
        (title : option pystr) (s : state) :
  exists content label s',
    fetch_article W url title s = (Ok (content, label), s') /\
    ((content <> None /\ label = str "original") \/
     (content <> None /\
      exists domain, label = str "alternative: " ++ domain) \/
     (content = None /\ label = str "failed")).
Proof.
  unfold fetch_article. unfold bind at 1.
  destruct (scrape_url_returns W url s) as (o & s1 & ->).
  destruct (truthy_opt o) eqn:Ho.
  - unfold ret. do 3 eexists. split; [reflexivity |].
    left. split; [| reflexivity]. destruct o; [discriminate | discriminate].
  - assert (Hend : forall s2,
               exists content label s',
                 bind (ret (A := option (option pystr * pystr)) None)
                      (fun returned =>
                         match returned with
                         | Some r => ret r
                         | None => ret (None, str "failed")
                         end) s2
                 = (Ok (content, label), s') /\
                 ((content <> None /\ label = str "original") \/
                  (content <> None /\
                   exists domain, label = str "alternative: " ++ domain) \/
                  (content = None /\ label = str "failed"))).
    { intros s2. unfold bind, ret. do 3 eexists.
      split; [reflexivity |]. right. right. split; reflexivity. }
    destruct title as [t |]; [| apply Hend].
    destruct (truthy t); [| apply Hend].
    unfold bind at 1. unfold bind at 1.
    destruct (search_returns W t s1) as (alts & s2 & ->).
    destruct (try_alternatives_returns W url alts s2)
      as (r & s3 & -> & [-> | (c & d & ->)]).
    + unfold ret. do 3 eexists. split; [reflexivity |].
      right. right. split; reflexivity.
    + unfold ret. do 3 eexists. split; [reflexivity |].
      right. left. split; [discriminate | eauto].
Qed.

(** *** The floor of 100 characters *)

Lemma extract_markup_state markup s r s' :
  extract_markup W markup s = (r, s') -> s' = s.
Proof.
  unfold extract_markup, bind, try_except, lift, ret.
  destruct (parse_lxml W markup) as [c | e].
  - destruct (_ <? 100); intros [= _ <-]; reflexivity.
  - destruct (parse_html_parser W markup) as [c | e'].
    + destruct (_ <? 100); intros [= _ <-]; reflexivity.
    + intros [= _ <-]; reflexivity.
Qed.

Lemma extract_markup_some markup s t s' :
  extract_markup W markup s = (Ok (Some t), s') -> 100 <= length t.
Proof.
  unfold extract_markup, bind, try_except, lift, ret.
  destruct (parse_lxml W markup) as [c | e].
  - destruct (_ <? 100) eqn:Hlen; intros [= <- _].
    apply Nat.ltb_ge in Hlen. exact Hlen.
  - destruct (parse_html_parser W markup) as [c | e'].
    + destruct (_ <? 100) eqn:Hlen; intros [= <- _].
      apply Nat.ltb_ge in Hlen. exact Hlen.
    + discriminate.
Qed.

Lemma scrape_url_some url s t s' :
  _scrape_url W url s = (Ok (Some t), s') -> 100 <= length t.
Proof.
  unfold _scrape_url. destruct (negb (truthy url)); [discriminate |].
  unfold try_except, bind at 1, session_get.
  destruct (http_get W s url 15) as [resp | e]; [| discriminate].
  unfold bind, raise_for_status.
  destruct (_ && _); [discriminate |]. unfold ret at 1.
  destruct (extract_markup W (text resp) _) as [[o | e] s2] eqn:Hx;
    [| discriminate].
  intros [= -> _]. eapply extract_markup_some; eauto.
Qed.

Lemma try_alternatives_some url alt_urls :
  forall s t label s',
    try_alternatives W url alt_urls s = (Ok (Some (Some t, label)), s') ->
    100 <= length t.
Proof.
  induction alt_urls as [| alt_url rest IH]; intros s t label s'; simpl.
  - discriminate.
  - destruct (negb (eqb alt_url url)); [| apply IH].
    unfold bind at 1.
    destruct (scrape_url_returns W alt_url s) as (o & s1 & Hs).
    rewrite Hs.
    destruct o as [t0 |]; simpl; [destruct (truthy t0) |]; try apply IH.
    unfold bind, ret.
    destruct (get_domain_returns W alt_url s1) as (d & ->).
    intros [= <- _ _]. eapply scrape_url_some; eauto.
Qed.

(** C2.  Whenever [_scrape_url] or [fetch_article] returns a text, the
    text has at least 100 characters; a page whose extracted text is
    shorter is reported as [None], not as a short string. *)
Theorem C2_returned_text_has_100_characters (url : pystr)
        (title : option pystr) (s : state) :
  (forall t s', _scrape_url W url s = (Ok (Some t), s') ->
                100 <= length t) /\
  (forall t label s',
      fetch_article W url title s = (Ok (Some t, label), s') ->
      100 <= length t) /\
  (forall resp contents,
      truthy url = true ->
      http_get W s url 15 = Ok resp ->
      ((400 <=? status_code resp) && (status_code resp <? 600))%Z = false ->
      parse_lxml W (text resp) = Ok contents ->
      length (_extract_text W
                (choose_content (remove_unwanted (document contents))))
      < 100 ->
      _scrape_url W url s = (Ok None, s ++ [(url, 15%Z)])).
Proof.
  split; [| split].
  - intros t s'. apply scrape_url_some.
  - intros t label s'. unfold fetch_article. unfold bind at 1.
    destruct (scrape_url_returns W url s) as (o & s1 & Hs). rewrite Hs.
    destruct (truthy_opt o) eqn:Ho.
    + unfold ret. intros [= -> _ _]. eapply scrape_url_some; eauto.
    + destruct title as [t0 |]; [destruct (truthy t0) |];
        try (unfold bind, ret; discriminate).
      unfold bind at 1. unfold bind at 1.
      destruct (search_returns W t0 s1) as (alts & s2 & ->).
      destruct (try_alternatives W url alts s2) as [[[r |] | e] s3] eqn:Ha;
        unfold ret; try discriminate.
      intros [= -> _]. eapply try_alternatives_some; eauto.
  - intros resp contents Hurl Hget Hstatus Hparse Hshort.
    unfold _scrape_url. rewrite Hurl. cbn [negb].
    unfold try_except, bind at 1, session_get. rewrite Hget.
    unfold bind at 1, raise_for_status. rewrite Hstatus. unfold ret at 1.
    unfold extract_markup, bind, try_except, lift. rewrite Hparse.
    apply Nat.ltb_lt in Hshort. rewrite Hshort. reflexivity.
Qed.

(** *** The log of requests *)

Lemma scrape_url_log url s r s' :
  _scrape_url W url s = (r, s') ->
  s' = s ++ (if truthy url then [(url, 15%Z)] else []).
Proof.
  unfold _scrape_url. destruct (truthy url); cbn [negb].
  - unfold try_except, bind at 1, session_get.
    destruct (http_get W s url 15) as [resp | e].
    + unfold bind, raise_for_status.
      destruct (_ && _).
      * unfold raise, ret. intros [= _ <-]. reflexivity.
      * unfold ret at 1.
        destruct (extract_markup W (text resp) _) as [[o | e] s2] eqn:Hx;
          apply extract_markup_state in Hx; subst s2;
          unfold ret; intros [= _ <-]; reflexivity.
    + unfold ret. intros [= _ <-]. reflexivity.
  - unfold ret. intros [= _ <-]. now rewrite app_nil_r.
Qed.

Lemma scrape_url_empty s : _scrape_url W [] s = (Ok None, s).
Proof. reflexivity. Qed.

(** The loop only asks for candidates that differ from [url]. *)
Lemma try_alternatives_log url alt_urls :
  forall s r s',
    try_alternatives W url alt_urls s = (r, s') ->
    exists extra,
      s' = s ++ extra /\
      Forall (fun q => fst q <> url /\ In (fst q) alt_urls) extra.
Proof.
  induction alt_urls as [| alt_url rest IH]; intros s r s'; simpl.
  - unfold ret. intros [= _ <-]. exists []. now rewrite app_nil_r.
  - assert (Hrest : forall s0,
               try_alternatives W url rest s0 = (r, s') ->
               exists extra,
                 s' = s0 ++ extra /\
                 Forall (fun q => fst q <> url /\
                                  (alt_url = fst q \/ In (fst q) rest))
                        extra).
    { intros s0 H. destruct (IH _ _ _ H) as (extra & -> & Hall).
      exists extra. split; [reflexivity |].
      eapply Forall_impl; [| exact Hall]. simpl. tauto. }
    destruct (eqb alt_url url) eqn:Heq; cbn [negb];
      [apply Hrest |].
    apply eqb_neq in Heq.
    unfold bind at 1.
    destruct (_scrape_url W alt_url s) as [[o | e] s1] eqn:Hs.
    + apply scrape_url_log in Hs.
      assert (Hfirst :
                Forall (fun q => fst q <> url /\
                                 (alt_url = fst q \/ In (fst q) rest))
                       (if truthy alt_url then [(alt_url, 15%Z)] else [])).
      { destruct (truthy alt_url); constructor; simpl; auto. }
      destruct (truthy_opt o).
      * unfold bind, ret.
        destruct (get_domain_returns W alt_url s1) as (d & ->).
        intros [= _ <-]. eexists. split; [exact Hs | exact Hfirst].
      * intros H. destruct (Hrest _ H) as (extra & -> & Hall).
        subst s1. rewrite <- app_assoc. eexists. split; [reflexivity |].
        apply Forall_app. split; assumption.
    + destruct (scrape_url_returns W alt_url s) as (o & s2 & Hs').
      congruence.
Qed.

End Retrieval.

(** ** The search for alternative sources *)

Section Search.

Variable W : World.

(** [_search_alternative_sources], case by case. *)
Lemma search_unfold title s :
  _search_alternative_sources W title s =
  match url_quote W (search_text W title) with
  | Raise _ => (Ok [], s)
  | Ok q =>
      let s' := s ++ [(search_url q, 10%Z)] in
      match http_get W s (search_url q) 10 with
      | Raise _ => (Ok [], s')
      | Ok resp =>
          if ((400 <=? status_code resp) && (status_code resp <? 600))%Z
          then (Ok [], s')
          else
            match parse_lxml W (text resp) with
            | Raise _ => (Ok [], s')
            | Ok contents =>
                match collect_urls W (result_links contents) [] with
                | Ok urls => (Ok urls, s')
                | Raise _ => (Ok [], s')
                end
            end
      end
  end.
Proof.
  unfold _search_alternative_sources, try_except, bind at 1, lift at 1.
  destruct (url_quote W (search_text W title)) as [q | e]; [| reflexivity].
  unfold bind at 1, session_get. fold (search_url q).
  destruct (http_get W s (search_url q) 10) as [resp | e]; [| reflexivity].
  unfold bind at 1, raise_for_status.
  destruct (_ && _); [reflexivity |].
  unfold ret at 1, bind, lift.
  destruct (parse_lxml W (text resp)) as [contents | e]; [| reflexivity].
  fold (result_links contents).
  destruct (collect_urls W (result_links contents) []); reflexivity.
Qed.

Lemma search_log title s r s' :
  _search_alternative_sources W title s = (r, s') ->
  s' = s ++ match url_quote W (search_text W title) with
            | Ok q => [(search_url q, 10%Z)]
            | Raise _ => []
            end.
Proof.
  rewrite search_unfold.
  destruct (url_quote W (search_text W title)) as [q | e].
  - cbv zeta.
    destruct (http_get W s (search_url q) 10) as [resp | e];
      [destruct (_ && _);
       [| destruct (parse_lxml W (text resp));
          [destruct (collect_urls W _ []) |]] |];
      intros [= _ <-]; reflexivity.
  - intros [= _ <-]. now rewrite app_nil_r.
Qed.

End Search.

(** ** Empty title, empty url *)

Section EmptyArguments.

Variable W : World.

(** C10.  An empty title is an absent title: [fetch_article] does the
    same with both; when the primary URL fails it performs no search,
    logs no request beyond the primary one and answers
    [(None, failed)].  An empty url fails at once without a request, and
    with a non-empty title the call goes on to the search on the title
    and to the loop over its candidates. *)
Theorem C10_empty_title_and_empty_url (url : pystr) (s : state) :
  fetch_article W url (Some []) s = fetch_article W url None s /\
  (forall s1,
      _scrape_url W url s = (Ok None, s1) ->
      fetch_article W url (Some []) s = (Ok (None, str "failed"), s1) /\
      s1 = s ++ (if truthy url then [(url, 15%Z)] else [])) /\
  _scrape_url W [] s = (Ok None, s) /\
  (forall t,
      truthy t = true ->
      fetch_article W [] (Some t) s =
      (alt_urls <- _search_alternative_sources W t ;;
       returned <- try_alternatives W [] alt_urls ;;
       match returned with
       | Some r => ret r
       | None => ret (None, str "failed")
       end) s /\
      forall q, url_quote W (search_text W t) = Ok q ->
        exists r extra,
          fetch_article W [] (Some t) s
          = (r, s ++ (search_url q, 10%Z) :: extra)).
Proof.
  split; [reflexivity |]. split; [| split; [reflexivity |]].
  - intros s1 Hs. split.
    + unfold fetch_article, bind at 1. rewrite Hs. reflexivity.
    + eapply scrape_url_log; eauto.
  - intros t Ht.
    assert (Heq : fetch_article W [] (Some t) s =
      (alt_urls <- _search_alternative_sources W t ;;
       returned <- try_alternatives W [] alt_urls ;;
       match returned with
       | Some r => ret r
       | None => ret (None, str "failed")
       end) s).
    { unfold fetch_article, bind at 1. rewrite scrape_url_empty.
      cbn [truthy_opt]. rewrite Ht. unfold bind.
      destruct (_search_alternative_sources W t s) as [[alts | e] s1];
        [| reflexivity].
      destruct (try_alternatives W [] alts s1) as [[r | e] s2];
        reflexivity. }
    split; [exact Heq |].
    intros q Hq. rewrite Heq. unfold bind at 1.
    destruct (_search_alternative_sources W t s) as [[alts | e] s1] eqn:Hs.
    + apply search_log in Hs. rewrite Hq in Hs. subst s1.
      unfold bind.
      destruct (try_alternatives W [] alts _) as [[r | e] s2] eqn:Ha;
        apply try_alternatives_log in Ha;
        destruct Ha as (extra & -> & _);
        rewrite <- app_assoc; simpl;
        [destruct r |]; unfold ret; eauto.
    + destruct (search_returns W t s) as (l & s2 & Hs'). congruence.
Qed.

End EmptyArguments.

(** ** The loop over the result links *)

Section Candidates.

Variable W : World.

(** What a link adds does not depend on what was gathered before. *)
Lemma visit_link_app link urls :
  visit_link W link urls =
  match visit_link W link [] with
  | Ok c => Ok (urls ++ c)
  | Raise e => Raise e
  end.
Proof.
  unfold visit_link.
  destruct (get_attr (str "href") (AStr []) link) as [href | l];
    [| reflexivity].
  destruct (contains (str "uddg=") href).
  - destruct (Re.search_uddg href) as [g |];
      [destruct (_is_news_url W (url_unquote W g)) |];
      simpl; now rewrite ?app_nil_r.
  - destruct (startswith (str "http") href);
      [destruct (_is_news_url W href) |];
      simpl; now rewrite ?app_nil_r.
Qed.

(** A link adds at most one URL, and only one that [_is_news_url]
    accepts. *)
Lemma visit_link_one link c :
  visit_link W link [] = Ok c ->
  length c <= 1 /\ forall u, In u c -> _is_news_url W u = true.
Proof.
  unfold visit_link.
  destruct (get_attr (str "href") (AStr []) link) as [href | l];
    [| discriminate].
  destruct (contains (str "uddg=") href).
  - destruct (Re.search_uddg href) as [g |];
      [destruct (_is_news_url W (url_unquote W g)) eqn:Hn |];
      intros [= <-]; simpl; split; auto; intros u [<- | []]; assumption.
  - destruct (startswith (str "http") href);
      [destruct (_is_news_url W href) eqn:Hn |];
      intros [= <-]; simpl; split; auto; intros u [<- | []]; assumption.
Qed.

Lemma candidates_one link :
  length (candidates W link) <= 1 /\
  forall u, In u (candidates W link) -> _is_news_url W u = true.
Proof.
  unfold candidates.
  destruct (visit_link W link []) as [c | e] eqn:Hv.
  - eapply visit_link_one; eauto.
  - simpl. split; [lia | tauto].
Qed.

(** The loop returns at most 5 URLs. *)
Lemma collect_urls_length links :
  forall urls r,
    length urls < 5 ->
    collect_urls W links urls = Ok r -> length r <= 5.
Proof.
  induction links as [| link rest IH]; intros urls r Hlen;
    cbn [collect_urls].
  - intros [= <-]. lia.
  - rewrite visit_link_app.
    destruct (visit_link W link []) as [c | e] eqn:Hv; [| discriminate].
    apply visit_link_one in Hv. destruct Hv as [Hc _].
    destruct (5 <=? length (urls ++ c)) eqn:Hfull.
    + intros [= <-]. rewrite length_app. lia.
    + apply Nat.leb_gt in Hfull. apply IH. exact Hfull.
Qed.

(** Every URL the loop returns was accepted by [_is_news_url]. *)
Lemma collect_urls_news links :
  forall urls r,
    collect_urls W links urls = Ok r ->
    forall u, In u r -> In u urls \/ _is_news_url W u = true.
Proof.
  induction links as [| link rest IH]; intros urls r; cbn [collect_urls].
  - intros [= <-]. auto.
  - rewrite visit_link_app.
    destruct (visit_link W link []) as [c | e] eqn:Hv; [| discriminate].
    apply visit_link_one in Hv. destruct Hv as [_ Hnews].
    assert (Hstep : forall u, In u (urls ++ c) ->
                              In u urls \/ _is_news_url W u = true).
    { intros u Hu. apply in_app_or in Hu. destruct Hu; auto. }
    destruct (5 <=? length (urls ++ c)).
    + intros [= <-]. exact Hstep.
    + intros Hr u Hu. destruct (IH _ _ Hr u Hu); auto.
Qed.

(** The loop gathers the candidates of the links in order and stops at
    the fifth. *)
Lemma collect_urls_firstn links :
  forall urls,
    length urls < 5 ->
    Forall (fun link => exists c, visit_link W link [] = Ok c) links ->
    collect_urls W links urls
    = Ok (urls ++ firstn (5 - length urls) (flat_map (candidates W) links)).
Proof.
  induction links as [| link rest IH]; intros urls Hlen Hall;
    cbn [collect_urls flat_map].
  - now rewrite firstn_nil, app_nil_r.
  - inversion Hall as [| ? ? (c & Hc) Hrest]; subst.
    rewrite visit_link_app. unfold candidates at 1. rewrite Hc.
    destruct (visit_link_one _ _ Hc) as [Hone _].
    rewrite firstn_app.
    destruct (5 <=? length (urls ++ c)) eqn:Hfull.
    + apply Nat.leb_le in Hfull. rewrite length_app in Hfull.
      replace (5 - length urls - length c) with 0 by lia.
      rewrite firstn_O, app_nil_r.
      rewrite (@firstn_all2 _ (5 - length urls) c) by lia. reflexivity.
    + apply Nat.leb_gt in Hfull. rewrite IH by assumption.
      rewrite length_app in *.
      rewrite (@firstn_all2 _ (5 - length urls) c) by lia.
      replace (5 - (length urls + length c))
        with (5 - length urls - length c) by lia.
      now rewrite <- app_assoc.
Qed.

End Candidates.

Section SearchResults.

Variable W : World.

(** C8.  The search returns a list of at most 5 URLs and never an error;
    the list gathers the candidates of the result links in order and
    stops at the fifth; a failure of the network or of the parser gives
    the empty list. *)
Theorem C8_search_returns_at_most_five (title : pystr) (s : state) :
  (exists urls s',
      _search_alternative_sources W title s = (Ok urls, s') /\
      length urls <= 5) /\
  (search_failure W title s ->
   fst (_search_alternative_sources W title s) = Ok []) /\
  (forall q resp contents,
      url_quote W (search_text W title) = Ok q ->
      http_get W s (search_url q) 10 = Ok resp ->
      ((400 <=? status_code resp) && (status_code resp <? 600))%Z = false ->
      parse_lxml W (text resp) = Ok contents ->
      Forall (fun link => exists c, visit_link W link [] = Ok c)
             (result_links contents) ->
      fst (_search_alternative_sources W title s)
      = Ok (firstn 5 (flat_map (candidates W) (result_links contents)))).
Proof.
  split; [| split].
  - destruct (search_returns W title s) as (urls & s' & Hs).
    exists urls, s'. split; [exact Hs |].
    rewrite search_unfold in Hs.
    destruct (url_quote W (search_text W title)) as [q | e];
      [| injection Hs as <- _; simpl; lia].
    cbv zeta in Hs.
    destruct (http_get W s (search_url q) 10) as [resp | e];
      [| injection Hs as <- _; simpl; lia].
    destruct (_ && _); [injection Hs as <- _; simpl; lia |].
    destruct (parse_lxml W (text resp)) as [contents | e];
      [| injection Hs as <- _; simpl; lia].
    destruct (collect_urls W (result_links contents) []) as [l | e] eqn:Hc;
      [| injection Hs as <- _; simpl; lia].
    injection Hs as <- _.
    eapply collect_urls_length; [| exact Hc]. simpl. lia.
  - unfold search_failure. rewrite search_unfold.
    destruct (url_quote W (search_text W title)) as [q | e];
      [| reflexivity].
    cbv zeta.
    destruct (http_get W s (search_url q) 10) as [resp | e];
      [| reflexivity].
    intros [-> | Hparse]; [reflexivity |].
    destruct (_ && _); [reflexivity |].
    destruct (parse_lxml W (text resp)) as [contents | e]; [| reflexivity].
    destruct Hparse as (e & ->). reflexivity.
  - intros q resp contents Hq Hget Hstatus Hparse Hall.
    rewrite search_unfold, Hq. cbv zeta. rewrite Hget, Hstatus, Hparse.
    rewrite collect_urls_firstn by (simpl; auto with arith).
    reflexivity.
Qed.

End SearchResults.

(** ** Substrings and lower case *)

Lemma startswith_iff p s :
  startswith p s = true <-> exists b, s = p ++ b.
Proof.
  revert s. induction p as [| a p IH]; intros s; simpl.
  - split; [eauto | reflexivity].
  - destruct s as [| c s].
    + split; [discriminate | intros (b & H); discriminate].
    + rewrite andb_true_iff, N.eqb_eq, IH. split.
      * intros (-> & b & ->). eauto.
      * intros (b & [= -> ->]). eauto.
Qed.

Lemma contains_iff p s :
  contains p s = true <-> exists a b, s = a ++ p ++ b.
Proof.
  induction s as [| c s IH].
  - simpl. rewrite orb_false_r, startswith_iff. split.
    + intros (b & ->). exists [], b. reflexivity.
    + intros (a & b & H). destruct a; [eauto | discriminate].
  - cbn [contains]. rewrite orb_true_iff, startswith_iff, IH. split.
    + intros [(b & ->) | (a & b & ->)].
      * exists [], b. reflexivity.
      * exists (c :: a), b. reflexivity.
    + intros (a & b & H). destruct a as [| c' a].
      * left. eauto.
      * right. injection H as -> ->. eauto.
Qed.

Lemma ascii_lower_is_ascii c :
  is_ascii (ascii_lower c) = true -> is_ascii c = true.
Proof.
  unfold is_ascii, ascii_lower.
  destruct ((65 <=? c) && (c <=? 90))%N eqn:H; [| tauto].
  apply andb_true_iff in H. destruct H as [_ H].
  apply N.leb_le in H. intros _. apply N.ltb_lt. lia.
Qed.

Lemma map_lower_is_ascii m :
  forallb is_ascii (map ascii_lower m) = true -> forallb is_ascii m = true.
Proof.
  induction m as [| c m IH]; simpl; [reflexivity |].
  rewrite !andb_true_iff. intros [Hc Hm].
  split; [now apply ascii_lower_is_ascii | now apply IH].
Qed.

Section LowerCase.

Variable W : World.

Lemma lower_from_app before x y :
  exists x', lower_from W before (x ++ y)
             = x' ++ lower_from W (before ++ x) y.
Proof.
  revert before. induction x as [| c x IH]; intros before; simpl.
  - exists []. now rewrite app_nil_r.
  - destruct (IH (before ++ [c])) as (x' & ->).
    rewrite <- app_assoc. simpl.
    exists (lower_char W before c (x ++ y) ++ x'). now rewrite app_assoc.
Qed.

Lemma lower_from_ascii before m y :
  forallb is_ascii m = true ->
  lower_from W before (m ++ y)
  = map ascii_lower m ++ lower_from W (before ++ m) y.
Proof.
  revert before. induction m as [| c m IH]; intros before; simpl.
  - now rewrite app_nil_r.
  - rewrite andb_true_iff. intros [Hc Hm].
    unfold lower_char. rewrite Hc. simpl.
    rewrite IH by assumption. now rewrite <- app_assoc.
Qed.

(** An ASCII pattern that occurs in a URL, whatever the case, occurs in
    its lower case. *)
Lemma occurs_nocase_lower pattern url :
  forallb is_ascii pattern = true ->
  occurs_nocase pattern url ->
  contains pattern (lower W url) = true.
Proof.
  intros Hp (a & m & b & -> & Hm). subst pattern.
  apply map_lower_is_ascii in Hp.
  apply contains_iff. unfold lower.
  destruct (lower_from_app [] a (m ++ b)) as (a' & ->).
  rewrite lower_from_ascii by assumption. eauto.
Qed.

Lemma skip_patterns_ascii pattern :
  In pattern skip_patterns -> forallb is_ascii pattern = true.
Proof.
  assert (H : forallb (forallb is_ascii) skip_patterns = true)
    by reflexivity.
  rewrite forallb_forall in H. apply H.
Qed.

(** No pattern of the list occurs in a URL [_is_news_url] accepts. *)
Lemma news_url_no_pattern url pattern :
  _is_news_url W url = true ->
  In pattern skip_patterns ->
  ~ occurs_nocase pattern url.
Proof.
  unfold _is_news_url. intros Hnews Hin Hocc.
  apply negb_true_iff in Hnews.
  assert (Hex : existsb (fun p => contains p (lower W url)) skip_patterns
                = true).
  { apply existsb_exists. exists pattern. split; [exact Hin |].
    apply occurs_nocase_lower; [now apply skip_patterns_ascii | exact Hocc]. }
  congruence.
Qed.

End LowerCase.

Section Denylist.

Variable W : World.

Lemma search_results_news title s urls s' :
  _search_alternative_sources W title s = (Ok urls, s') ->
  forall u, In u urls -> _is_news_url W u = true.
Proof.
  rewrite search_unfold.
  destruct (url_quote W (search_text W title)) as [q | e];
    [| intros [= <- _] u []].
  cbv zeta.
  destruct (http_get W s (search_url q) 10) as [resp | e];
    [| intros [= <- _] u []].
  destruct (_ && _); [intros [= <- _] u [] |].
  destruct (parse_lxml W (text resp)) as [contents | e];
    [| intros [= <- _] u []].
  destruct (collect_urls W (result_links contents) []) as [l | e] eqn:Hc;
    [| intros [= <- _] u []].
  intros [= <- _] u Hu.
  destruct (collect_urls_news W _ _ _ Hc u Hu) as [[] | H]. exact H.
Qed.

Lemma host_in_domain_occurs domain host url path :
  url_parts url host path ->
  host_in_domain domain host ->
  occurs_nocase domain url.
Proof.
  intros (before & after & ->) [Hd | (sub & Hd)].
  - exists before, host, (path ++ after). auto.
  - apply map_eq_app in Hd. destruct Hd as (h1 & h2 & -> & _ & Hd).
    apply map_eq_app in Hd. destruct Hd as (h3 & h4 & -> & _ & Hd).
    exists (before ++ h1 ++ h3), h4, (path ++ after).
    split; [| exact Hd]. now rewrite <- !app_assoc.
Qed.

Lemma path_segment_occurs segment host url path :
  url_parts url host path ->
  In segment skip_segments ->
  contains segment path = true ->
  occurs_nocase segment url.
Proof.
  intros (before & after & ->) Hin Hc.
  apply contains_iff in Hc. destruct Hc as (a & b & ->).
  exists (before ++ host ++ a), segment, (b ++ after). split.
  - now rewrite <- !app_assoc.
  - simpl in Hin.
    destruct Hin as [<- | [<- | [<- | [<- | []]]]]; reflexivity.
Qed.

(** A host or a path that stands in the text of a returned URL is not on
    the list. *)
Lemma literal_parts_avoid_denylist (title : pystr) (s : state)
        (urls : list pystr) (s' : state) (u host path : pystr) :
  _search_alternative_sources W title s = (Ok urls, s') ->
  In u urls ->
  url_parts u host path ->
  (forall domain, In domain skip_domains -> ~ host_in_domain domain host) /\
  (forall segment, In segment skip_segments ->
                   contains segment path = false).
Proof.
  intros Hs Hu Hparts.
  pose proof (search_results_news _ _ _ _ Hs u Hu) as Hnews.
  split.
  - intros domain Hd Hhost.
    apply (news_url_no_pattern W u domain Hnews).
    + unfold skip_patterns. apply in_or_app. now left.
    + eapply host_in_domain_occurs; eauto.
  - intros segment Hseg.
    destruct (contains segment path) eqn:Hc; [| reflexivity].
    exfalso. apply (news_url_no_pattern W u segment Hnews).
    + unfold skip_patterns. apply in_or_app. now right.
    + eapply path_segment_occurs; eauto.
Qed.

(** C6, as the code has it.  No URL the search returns contains, anywhere
    in its text and in any letter case, one of the listed domain names
    (youtube.com, twitter.com, facebook.com, instagram.com, reddit.com,
    wikipedia.org, amazon.com, ebay.com) or one of /search, /category,
    /tag/, /author/; so a host that stands in the text of the URL is none
    of these domains nor a subdomain of one, and a path that stands in it
    contains none of these segments. *)
Theorem C6_search_results_avoid_patterns (title : pystr) (s : state)
        (urls : list pystr) (s' : state) (u : pystr) :
  _search_alternative_sources W title s = (Ok urls, s') ->
  In u urls ->
  (forall pattern, In pattern skip_patterns -> ~ occurs_nocase pattern u) /\
  (forall host path,
      url_parts u host path ->
      (forall domain, In domain skip_domains ->
                      ~ host_in_domain domain host) /\
      (forall segment, In segment skip_segments ->
                       contains segment path = false)).
Proof.
  intros Hs Hu. split.
  - intros pattern Hin.
    apply (news_url_no_pattern W u pattern); [| exact Hin].
    exact (search_results_news _ _ _ _ Hs u Hu).
  - intros host path Hparts.
    exact (literal_parts_avoid_denylist _ _ _ _ _ _ _ Hs Hu Hparts).
Qed.

End Denylist.

(** ** One result link *)

Lemma until_ampersand_spec s :
  exists rest,
    s = Re.until_ampersand s ++ rest /\
    ~ In ampersand (Re.until_ampersand s) /\
    (rest = [] \/ exists rest', rest = ampersand :: rest').
Proof.
  induction s as [| c s (rest & Hs & Hno & Hrest)]; simpl.
  - exists []. auto.
  - destruct (c =? ampersand)%N eqn:Hc.
    + apply N.eqb_eq in Hc. subst c. exists (ampersand :: s). simpl.
      split; [reflexivity |]. split; [tauto |]. right. eauto.
    + apply N.eqb_neq in Hc. exists rest. simpl. split; [congruence |].
      split; [| exact Hrest]. intros [H | H]; auto.
Qed.

Lemma until_ampersand_empty r :
  Re.until_ampersand r = [] -> no_value r.
Proof.
  intros H. destruct (until_ampersand_spec r) as (rest & Hsplit & _ & Hrest).
  rewrite H in Hsplit. simpl in Hsplit. subst rest. exact Hrest.
Qed.

(** Without a match, every [uddg=] of the text is followed by [&] or by
    nothing. *)
Lemma search_uddg_none s :
  Re.search_uddg s = None ->
  forall b r, s = b ++ str "uddg=" ++ r -> no_value r.
Proof.
  induction s as [| c s IH]; intros Hnone b r Hs.
  - destruct b; discriminate.
  - cbn [Re.search_uddg] in Hnone. destruct b as [| c' b].
    + assert (Hstart : startswith (str "uddg=") (c :: s) = true)
        by (apply startswith_iff; eauto).
      rewrite Hstart, Hs in Hnone.
      change (skipn 5 ([] ++ str "uddg=" ++ r)) with r in Hnone.
      destruct (Re.until_ampersand r) eqn:Hr; [| discriminate].
      now apply until_ampersand_empty.
    + injection Hs as _ Hs. apply (IH) with (b := b); [| exact Hs].
      destruct (startswith (str "uddg=") (c :: s)); [| exact Hnone].
      destruct (Re.until_ampersand (skipn 5 (c :: s))); [exact Hnone |].
      discriminate.
Qed.

(** The group of [uddg=([^&]+)]: a non-empty text without [&] that stands
    right after a [uddg=] and runs to the next [&] or to the end; every
    [uddg=] further left is followed by [&] or by nothing. *)
Lemma search_uddg_spec s v :
  Re.search_uddg s = Some v ->
  v <> [] /\ ~ In ampersand v /\
  exists before after,
    s = before ++ str "uddg=" ++ v ++ after /\
    no_value after /\
    forall b r, s = b ++ str "uddg=" ++ r ->
                length b < length before -> no_value r.
Proof.
  induction s as [| c s IH]; [discriminate |].
  cbn [Re.search_uddg].
  assert (Hlater :
            (forall r, c :: s = str "uddg=" ++ r -> no_value r) ->
            Re.search_uddg s = Some v ->
            v <> [] /\ ~ In ampersand v /\
            exists before after,
              c :: s = before ++ str "uddg=" ++ v ++ after /\
              no_value after /\
              forall b r, c :: s = b ++ str "uddg=" ++ r ->
                          length b < length before -> no_value r).
  { intros Hhere H.
    destruct (IH H) as (Hv & Hno & before & after & Hs & Hafter & Hleft).
    split; [exact Hv |]. split; [exact Hno |].
    exists (c :: before), after. rewrite Hs at 1.
    split; [reflexivity |]. split; [exact Hafter |].
    intros [| c' b] r Hb Hlen.
    - apply Hhere. exact Hb.
    - injection Hb as _ Hb. apply (Hleft b r Hb). simpl in Hlen. lia. }
  destruct (startswith (str "uddg=") (c :: s)) eqn:Hstart.
  - apply startswith_iff in Hstart. destruct Hstart as (tail & Htail).
    rewrite Htail.
    change (skipn 5 (str "uddg=" ++ tail)) with tail.
    destruct (until_ampersand_spec tail) as (rest & Hsplit & Hno & Hrest).
    destruct (Re.until_ampersand tail) as [| g0 g] eqn:Hg.
    + rewrite <- Htail. apply Hlater. intros r Hr.
      rewrite Htail in Hr. apply app_inv_head in Hr. subst r.
      now apply until_ampersand_empty.
    + intros [= <-]. split; [discriminate |]. split; [exact Hno |].
      exists [], rest. split; [| split; [exact Hrest |]].
      * simpl. rewrite Hsplit at 1. reflexivity.
      * intros b r _ Hlen. simpl in Hlen. lia.
  - apply Hlater. intros r Hr.
    assert (Htrue : startswith (str "uddg=") (c :: s) = true)
      by (apply startswith_iff; eauto).
    congruence.
Qed.

Section ResultLink.

Variable W : World.

(** C7, as the code has it.  For a result link whose href contains
    [uddg=], the only URL the search takes from it is the URL-decoded
    value of the leftmost [uddg=] that has one (the text up to the next
    [&]), kept when [_is_news_url] accepts it; the href itself is not
    taken, and nothing is taken when no [uddg=] has a value.  A link
    without [uddg=] is used directly exactly when its href starts with
    [http] and [_is_news_url] accepts it. *)
Theorem C7_link_candidate (link : node) (href : pystr)
        (urls : list pystr) :
  get_attr (str "href") (AStr []) link = AStr href ->
  (contains (str "uddg=") href = true ->
   (exists v,
       Re.search_uddg href = Some v /\
       (v <> [] /\ ~ In ampersand v /\
        exists before after,
          href = before ++ str "uddg=" ++ v ++ after /\
          no_value after /\
          forall b r, href = b ++ str "uddg=" ++ r ->
                      length b < length before -> no_value r) /\
       visit_link W link urls
       = Ok (if _is_news_url W (url_unquote W v)
             then urls ++ [url_unquote W v] else urls)) \/
   ((forall b r, href = b ++ str "uddg=" ++ r -> no_value r) /\
    visit_link W link urls = Ok urls)) /\
  (contains (str "uddg=") href = false ->
   visit_link W link urls
   = Ok (if startswith (str "http") href && _is_news_url W href
         then urls ++ [href] else urls)).
Proof.
  intros Hhref. unfold visit_link. rewrite Hhref. split; intros Hc;
    rewrite Hc.
  - destruct (Re.search_uddg href) as [v |] eqn:Hv.
    + left. exists v. split; [reflexivity |].
      split; [now apply search_uddg_spec |].
      destruct (_is_news_url W (url_unquote W v)); reflexivity.
    + right. split; [now apply search_uddg_none | reflexivity].
  - destruct (startswith (str "http") href);
      [destruct (_is_news_url W href) |]; reflexivity.
Qed.

(** *** The query *)

Lemma sub_class_delete cls s :
  Re.sub_class cls [] s = filter (fun c => negb (cls c)) s.
Proof.
  unfold Re.sub_class.
  induction s as [| c s IH]; simpl; [reflexivity |].
  rewrite IH. destruct (cls c); reflexivity.
Qed.

(** C5, as the code has it.  The query is made of the characters of the
    title that are alphanumeric, the underscore or white space, in their
    order, cut after 100 characters, followed by [ news]. *)
Theorem C5_search_query_keeps_word_characters (title : pystr) :
  search_text W title
  = firstn 100 (filter (fun c => is_alnum W c || (c =? underscore)%N
                                 || is_space W c) title)
    ++ str " news" /\
  length (search_query W title) <= 100 /\
  (forall c, In c (search_query W title) ->
             In c title /\
             (is_alnum W c = true \/ c = underscore \/
              is_space W c = true)).
Proof.
  assert (Hq : search_query W title
               = firstn 100
                   (filter (fun c => is_alnum W c || (c =? underscore)%N
                                     || is_space W c) title)).
  { unfold search_query. rewrite sub_class_delete. f_equal.
    apply filter_ext. intros c. unfold is_word.
    now rewrite negb_involutive. }
  split; [unfold search_text; now rewrite Hq |].
  split; [unfold search_query; apply firstn_le_length |].
  intros c Hc. rewrite Hq in Hc.
  assert (Hc' : In c (filter (fun c => is_alnum W c || (c =? underscore)%N
                                       || is_space W c) title)).
  { rewrite <- (firstn_skipn 100). apply in_or_app. now left. }
  clear Hc. rename Hc' into Hc.
  apply filter_In in Hc. destruct Hc as [Hin Hc]. split; [exact Hin |].
  apply orb_true_iff in Hc. destruct Hc as [Hc | Hc]; [| auto].
  apply orb_true_iff in Hc. destruct Hc as [Hc | Hc]; [auto |].
  apply N.eqb_eq in Hc. auto.
Qed.

End ResultLink.

(** ** The content container *)

Section Container.

Lemma py_max_first_longest {A} (key : A -> nat) (rest : list A) :
  forall best,
  exists i,
    nth_error (best :: rest) i = Some (py_max key best rest) /\
    (forall j e, nth_error (best :: rest) j = Some e ->
                 key e <= key (py_max key best rest)) /\
    (forall j e, j < i -> nth_error (best :: rest) j = Some e ->
                 key e < key (py_max key best rest)).
Proof.
  induction rest as [| y rest IH]; intros best.
  - exists 0. simpl. split; [reflexivity |]. split.
    + intros [| j] e; simpl; [intros [= ->]; lia |].
      destruct j; discriminate.
    + intros j e Hj. lia.
  - cbn [py_max]. destruct (key best <? key y) eqn:Hlt.
    + apply Nat.ltb_lt in Hlt.
      destruct (IH y) as (i & Hi & Hall & Hbefore). exists (S i).
      pose proof (Hall 0 y eq_refl) as Hy.
      split; [exact Hi |]. split.
      * intros [| j] e; simpl; [intros [= <-]; lia | apply Hall].
      * intros [| j] e Hj; simpl; [intros [= <-]; lia |].
        apply Hbefore. lia.
    + apply Nat.ltb_ge in Hlt.
      destruct (IH best) as (i & Hi & Hall & Hbefore).
      destruct i as [| i].
      * exists 0. simpl in Hi. injection Hi as Hi.
        split; [simpl; now f_equal |]. split; [| intros j e Hj; lia].
        intros [| [| j]] e; simpl.
        -- intros [= <-]. rewrite <- Hi. lia.
        -- intros [= <-]. rewrite <- Hi. lia.
        -- intros He. apply (Hall (S j) e). exact He.
      * exists (S (S i)). simpl in Hi.
        pose proof (Hbefore 0 best (Nat.lt_0_succ i) eq_refl) as Hb.
        split; [exact Hi |]. split.
        -- intros [| [| j]] e; simpl.
           ++ intros [= <-]. lia.
           ++ intros [= <-]. lia.
           ++ intros He. apply (Hall (S j) e). exact He.
        -- intros [| [| j]] e Hj; simpl.
           ++ intros [= <-]. lia.
           ++ intros [= <-]. lia.
           ++ intros He. apply (Hbefore (S j) e); [lia | exact He].
Qed.

Lemma find_main_content_skips before :
  forall selectors soup,
    Forall (fun s => select s soup = []) before ->
    find_main_content (before ++ selectors) soup
    = find_main_content selectors soup.
Proof.
  induction before as [| s before IH]; intros selectors soup Hall;
    [reflexivity |].
  inversion Hall as [| ? ? Hs Hrest]; subst.
  simpl. rewrite Hs. now apply IH.
Qed.

(** C3, as the code has it.  The container is taken from the matches of
    the first selector of the list that matches anything: it is the
    first match of greatest text length, so no match is longer and every
    earlier match is shorter.  Only when no selector matches is it the
    body, or the whole document when there is no body. *)
Theorem C3_content_selection (soup : node) (selector : selector) :
  (first_matching CONTENT_SELECTORS selector soup ->
   exists i,
     nth_error (select selector soup) i = Some (choose_content soup) /\
     first_longest (select selector soup) i) /\
  (Forall (fun s => select s soup = []) CONTENT_SELECTORS ->
   choose_content soup
   = match find (str "body") soup with
     | Some body => body
     | None => soup
     end).
Proof.
  split.
  - intros (before & after & Heq & Hnone & Hsome).
    unfold choose_content. rewrite Heq.
    rewrite find_main_content_skips by assumption.
    cbn [find_main_content].
    destruct (select selector soup) as [| x others]; [congruence |].
    destruct (py_max_first_longest (fun x => length (get_text x)) others x)
      as (i & Hi & Hall & Hbefore).
    exists i. split; [exact Hi |].
    intros c Hc. rewrite Hi in Hc. injection Hc as <-.
    split; [exact Hall | exact Hbefore].
  - intros Hnone. unfold choose_content.
    rewrite <- (app_nil_r CONTENT_SELECTORS) at 1.
    rewrite find_main_content_skips by assumption. reflexivity.
Qed.

End Container.

(** ** Concrete runs *)

(** C4.  The candidate [https://mywww.example.com/story] succeeds during
    the fallback; its host is [mywww.example.com], which has no leading
    [www.], and the label [fetch_article] returns names the domain
    [myexample.com]. *)
Theorem C4_label_loses_inner_www :
  urlparse_netloc Demo.world Demo.other_url = Ok (str "mywww.example.com") /\
  strip_leading_www (str "mywww.example.com") = str "mywww.example.com" /\
  _get_domain Demo.world Demo.other_url [] = (Ok (str "myexample.com"), []) /\
  fetch_article Demo.world Demo.missing_url (Some Demo.title) []
  = (Ok (Some Demo.paragraph, str "alternative: myexample.com"),
     [ (Demo.missing_url, 15%Z);
       (search_url (str "Tram%20line%20council%20votes%20news"), 10%Z);
       (Demo.other_url, 15%Z) ]).
Proof. repeat split; vm_compute; reflexivity. Qed.

Lemma twin_articles_first_matching :
  first_matching CONTENT_SELECTORS (SelTag (str "article")) twin_articles.
Proof.
  exists [], (tl CONTENT_SELECTORS). split; [reflexivity |].
  split; [constructor |]. vm_compute. discriminate.
Qed.

(** C3, as stated, fails: of two articles of equal text length the first
    is chosen, and it is not strictly longer than the other. *)
Lemma C3_equal_lengths_first_wins :
  first_matching CONTENT_SELECTORS (SelTag (str "article")) twin_articles /\
  ~ (exists i,
        nth_error (select (SelTag (str "article")) twin_articles) i
        = Some (choose_content twin_articles) /\
        strictly_longest (select (SelTag (str "article")) twin_articles) i).
Proof.
  split; [exact twin_articles_first_matching |].
  intros (i & Hi & Hlong).
  destruct i as [| [| i]].
  - specialize (Hlong 1 _ (Nat.neq_succ_0 0) eq_refl _ eq_refl).
    vm_compute in Hlong. lia.
  - vm_compute in Hi. discriminate.
  - vm_compute in Hi. destruct i; discriminate.
Qed.

(** C5, as stated, fails: the underscore is punctuation, neither
    alphanumeric nor white space, and the query keeps it. *)
Lemma C5_underscore_is_kept :
  is_alnum Demo.world underscore = false /\
  is_space Demo.world underscore = false /\
  search_text Demo.world (str "tax_cut plan") = str "tax_cut plan news" /\
  search_text Demo.world (str "tax_cut plan")
  <> firstn 100 (filter (fun c => is_alnum Demo.world c
                                  || is_space Demo.world c)
                        (str "tax_cut plan"))
     ++ str " news".
Proof.
  repeat split; try (vm_compute; reflexivity).
  vm_compute. discriminate.
Qed.

(** C6, as stated, fails: the search returns a URL with a TAB inside
    [youtube.com]; no listed name stands in its text, and [urlparse], which
    drops the TAB, gives it the host [youtube.com]. *)
Lemma C6_tab_in_the_host :
  fst (_search_alternative_sources Sample.tab_world Demo.title [])
  = Ok [Sample.tab_url] /\
  urlparse_netloc Sample.tab_world Sample.tab_url = Ok (str "youtube.com") /\
  In (str "youtube.com") skip_domains /\
  host_in_domain (str "youtube.com") (str "youtube.com").
Proof.
  split; [vm_compute; reflexivity |].
  split; [vm_compute; reflexivity |].
  split; [simpl; auto | left; reflexivity].
Qed.

(** C7, as stated, fails: a relative link that starts with [http] and has
    no [uddg=] is used directly, though it is no absolute HTTP(S) URL. *)
Lemma C7_relative_link_is_used :
  get_attr (str "href") (AStr []) (Demo.result_link "httpd.apache.org/docs/")
  = AStr (str "httpd.apache.org/docs/") /\
  contains (str "uddg=") (str "httpd.apache.org/docs/") = false /\
  is_absolute_http (str "httpd.apache.org/docs/") = false /\
  visit_link Demo.world (Demo.result_link "httpd.apache.org/docs/") []
  = Ok [str "httpd.apache.org/docs/"] /\
  fst (_search_alternative_sources Demo.world Demo.title [])
  = Ok [Demo.missing_url; Demo.other_url; str "httpd.apache.org/docs/"].
Proof. repeat split; vm_compute; reflexivity. Qed.

(** *** Instances in the small world *)

Lemma C2_floor_in_the_small_world :
  100 <= length Demo.paragraph /\
  _scrape_url Demo.world Demo.teaser_url []
  = (Ok None, [] ++ [(Demo.teaser_url, 15%Z)]).
Proof.
  split.
  - apply (proj1 (C2_returned_text_has_100_characters
                    Demo.world Demo.article_url None [])
                 Demo.paragraph [(Demo.article_url, 15%Z)]).
    vm_compute. reflexivity.
  - apply (proj2 (proj2 (C2_returned_text_has_100_characters
                           Demo.world Demo.teaser_url None []))
                 (mkResponse 200 Demo.teaser_markup) Demo.teaser_page);
      try (vm_compute; reflexivity).
    vm_compute. lia.
Defined.

Lemma C3_selection_in_the_small_world :
  (exists i,
      nth_error (select (SelTag (str "article")) twin_articles) i
      = Some (choose_content twin_articles) /\
      first_longest (select (SelTag (str "article")) twin_articles) i) /\
  choose_content (document Demo.teaser_page)
  = match find (str "body") (document Demo.teaser_page) with
    | Some body => body
    | None => document Demo.teaser_page
    end.
Proof.
  split.
  - apply (proj1 (C3_content_selection twin_articles
                                       (SelTag (str "article")))).
    exact twin_articles_first_matching.
  - apply (proj2 (C3_content_selection (document Demo.teaser_page)
                                       (SelTag (str "article")))).
    unfold CONTENT_SELECTORS.
    repeat (apply Forall_cons; [vm_compute; reflexivity |]).
    apply Forall_nil.
Defined.

Lemma C5_query_in_the_small_world :
  In underscore (str "tax_cut plan") /\
  (is_alnum Demo.world underscore = true \/ underscore = underscore \/
   is_space Demo.world underscore = true).
Proof.
  apply (proj2 (proj2 (C5_search_query_keeps_word_characters
                         Demo.world (str "tax_cut plan")))).
  vm_compute. tauto.
Defined.

Lemma C6_denylist_in_the_small_world :
  (forall pattern, In pattern skip_patterns ->
                   ~ occurs_nocase pattern Demo.other_url) /\
  (forall host path,
      url_parts Demo.other_url host path ->
      (forall domain, In domain skip_domains ->
                      ~ host_in_domain domain host) /\
      (forall segment, In segment skip_segments ->
                       contains segment path = false)).
Proof.
  apply (C6_search_results_avoid_patterns
           Demo.world Demo.title []
           [Demo.missing_url; Demo.other_url; str "httpd.apache.org/docs/"]
           [(search_url (str "Tram%20line%20council%20votes%20news"), 10%Z)]
           Demo.other_url).
  - vm_compute. reflexivity.
  - simpl. auto.
Defined.

Lemma C7_links_in_the_small_world :
  ((exists v,
       Re.search_uddg
         (str "//duckduckgo.com/l/?uddg=https%3A%2F%2Fwww.youtube.com%2Fwatch&rut=2")
       = Some v /\
       (v <> [] /\ ~ In ampersand v /\
        exists before after,
          str "//duckduckgo.com/l/?uddg=https%3A%2F%2Fwww.youtube.com%2Fwatch&rut=2"
          = before ++ str "uddg=" ++ v ++ after /\
          no_value after /\
          forall b r,
            str "//duckduckgo.com/l/?uddg=https%3A%2F%2Fwww.youtube.com%2Fwatch&rut=2"
            = b ++ str "uddg=" ++ r ->
            length b < length before -> no_value r) /\
       visit_link Demo.world
         (Demo.result_link
            "//duckduckgo.com/l/?uddg=https%3A%2F%2Fwww.youtube.com%2Fwatch&rut=2")
         [Demo.missing_url]
       = Ok (if _is_news_url Demo.world (url_unquote Demo.world v)
             then [Demo.missing_url] ++ [url_unquote Demo.world v]
             else [Demo.missing_url])) \/
   ((forall b r,
        str "//duckduckgo.com/l/?uddg=https%3A%2F%2Fwww.youtube.com%2Fwatch&rut=2"
        = b ++ str "uddg=" ++ r -> no_value r) /\
    visit_link Demo.world
      (Demo.result_link
         "//duckduckgo.com/l/?uddg=https%3A%2F%2Fwww.youtube.com%2Fwatch&rut=2")
      [Demo.missing_url]
    = Ok [Demo.missing_url])) /\
  visit_link Demo.world (Demo.result_link "https://example.org/b") []
  = Ok (if startswith (str "http") (str "https://example.org/b")
           && _is_news_url Demo.world (str "https://example.org/b")
        then [] ++ [str "https://example.org/b"] else []).
Proof.
  split.
  - apply (proj1 (C7_link_candidate
                    Demo.world
                    (Demo.result_link
                       "//duckduckgo.com/l/?uddg=https%3A%2F%2Fwww.youtube.com%2Fwatch&rut=2")
                    _ [Demo.missing_url] eq_refl)).
    vm_compute. reflexivity.
  - apply (proj2 (C7_link_candidate
                    Demo.world (Demo.result_link "https://example.org/b")
                    _ [] eq_refl)).
    vm_compute. reflexivity.
Defined.

Lemma C8_search_in_the_small_world :
  fst (_search_alternative_sources Demo.offline Demo.title []) = Ok [] /\
  fst (_search_alternative_sources Demo.world Demo.title [])
  = Ok (firstn 5 (flat_map (candidates Demo.world)
                           (result_links Demo.results_page))).
Proof.
  split.
  - apply (proj1 (proj2 (C8_search_returns_at_most_five
                           Demo.offline Demo.title []))).
    vm_compute. exact I.
  - apply (proj2 (proj2 (C8_search_returns_at_most_five
                           Demo.world Demo.title []))
                 (Demo.quote (search_text Demo.world Demo.title))
                 (mkResponse 200 Demo.results_markup)
                 Demo.results_page);
      try (vm_compute; reflexivity).
    repeat (apply Forall_cons; [eexists; vm_compute; reflexivity |]).
    apply Forall_nil.
Defined.

Lemma C10_empty_arguments_in_the_small_world :
  (fetch_article Demo.world Demo.missing_url (Some []) []
   = (Ok (None, str "failed"), [(Demo.missing_url, 15%Z)]) /\
   [(Demo.missing_url, 15%Z)]
   = [] ++ (if truthy Demo.missing_url
            then [(Demo.missing_url, 15%Z)] else [])) /\
  exists r extra,
    fetch_article Demo.world [] (Some Demo.title) []
    = (r, [] ++ (search_url (str "Tram%20line%20council%20votes%20news"),
                 10%Z) :: extra).
Proof.
  split.
  - apply (proj1 (proj2 (C10_empty_title_and_empty_url
                           Demo.world Demo.missing_url []))).
    vm_compute. reflexivity.
  - apply (proj2 (proj2 (proj2 (proj2 (C10_empty_title_and_empty_url
                                         Demo.world [] [])))
                        Demo.title eq_refl)
                 (str "Tram%20line%20council%20votes%20news")).
    vm_compute. reflexivity.
Defined.

(** * Further properties *)

(** ** Replacing a prefix *)

Lemma contains_cons_false p c s :
  contains p (c :: s) = false ->
  startswith p (c :: s) = false /\ contains p s = false.
Proof. cbn [contains]. apply orb_false_elim. Qed.

(** Without an occurrence nothing is replaced. *)
Lemma replace_absent old new s :
  contains old s = false -> replace old new s = s.
Proof.
  unfold replace. induction s as [| c s IH]; intros H; [reflexivity |].
  apply contains_cons_false in H. destruct H as [Hstart Hrest].
  cbn [replace_from]. rewrite Hstart, IH by assumption. reflexivity.
Qed.

Lemma replace_from_skip old new p d :
  replace_from (length p) old new (p ++ d) = replace_from 0 old new d.
Proof.
  induction p as [| c p IH]; [reflexivity |].
  simpl. destruct d; exact IH.
Qed.

Lemma startswith_app p d : startswith p (p ++ d) = true.
Proof.
  induction p as [| c p IH]; [reflexivity |].
  simpl. now rewrite N.eqb_refl, IH.
Qed.

(** A leading occurrence is replaced, and the scan goes on behind it. *)
Lemma replace_leading old new d :
  old <> [] ->
  replace old new (old ++ d) = new ++ replace old new d.
Proof.
  intros Hold. unfold replace. destruct old as [| c old]; [congruence |].
  change ((c :: old) ++ d) with (c :: (old ++ d)).
  cbn [replace_from].
  change (c :: old ++ d) with ((c :: old) ++ d).
  rewrite startswith_app. f_equal.
  replace (length (c :: old) - 1) with (length old) by (simpl; lia).
  apply replace_from_skip.
Qed.

Section Labels.

Variable W : World.

(** X7.  [_get_domain] on an ordinary host: a network location without
    [www.] is returned as it is, one that starts with [www.] and has no
    other [www.] loses exactly that prefix, and a URL that [urlparse]
    refuses gives [unknown]; no exception leaves the function. *)
Theorem get_domain_of_ordinary_host (url : pystr) (s : state) :
  (forall netloc,
      urlparse_netloc W url = Ok netloc ->
      contains (str "www.") netloc = false ->
      _get_domain W url s = (Ok netloc, s)) /\
  (forall host,
      urlparse_netloc W url = Ok (str "www." ++ host) ->
      contains (str "www.") host = false ->
      _get_domain W url s = (Ok host, s)) /\
  (forall e,
      urlparse_netloc W url = Raise e ->
      _get_domain W url s = (Ok (str "unknown"), s)).
Proof.
  unfold _get_domain, try_except, bind, lift, ret.
  split; [| split].
  - intros netloc -> Hno. now rewrite replace_absent.
  - intros host -> Hno.
    rewrite replace_leading by discriminate.
    now rewrite replace_absent.
  - intros e ->. reflexivity.
Qed.

End Labels.

(** ** From the label to the screen *)

(** X9.  The label of an alternative source is decoded by the screens: for
    a domain in which [alternative: ] does not occur, the text shown after
    "Content from:" is the domain itself; for the labels [original] and
    [failed] nothing is shown. *)
Theorem content_from_label (domain : pystr) :
  contains (str "alternative: ") domain = false ->
  Screen.content_from (str "alternative: " ++ domain) = Some domain /\
  Screen.content_from (str "original") = None /\
  Screen.content_from (str "failed") = None.
Proof.
  intros Hno. split; [| split; reflexivity].
  unfold Screen.content_from.
  assert (Hstart : startswith (str "alternative")
                              (str "alternative: " ++ domain) = true)
    by reflexivity.
  rewrite Hstart.
  rewrite replace_leading by discriminate.
  now rewrite replace_absent.
Qed.

(** X10.  The body simple.py shows: a text of at most 2000 characters is
    shown whole; a longer one is cut to its first 2000 characters followed
    by the note, 2050 characters in all; without a text, or with an empty
    one, no body is shown. *)
Theorem shown_content_is_bounded (content : option pystr) :
  (forall c, content = Some c -> c <> [] -> length c <= 2000 ->
             Screen.shown_content content = Some c) /\
  (forall c, content = Some c -> 2000 < length c ->
             Screen.shown_content content
             = Some (firstn 2000 c ++ Screen.truncated_note) /\
             length (firstn 2000 c ++ Screen.truncated_note) = 2050) /\
  (content = None \/ content = Some [] <->
   Screen.shown_content content = None).
Proof.
  split; [| split].
  - intros c -> Hc Hlen. unfold Screen.shown_content.
    destruct c as [| x c]; [congruence |]. cbn [truthy].
    apply Nat.ltb_ge in Hlen. now rewrite Hlen.
  - intros c -> Hlen. unfold Screen.shown_content.
    destruct c as [| x c]; [simpl in Hlen; lia |]. cbn [truthy].
    pose proof Hlen as Hlt. apply Nat.ltb_lt in Hlt. rewrite Hlt.
    split; [reflexivity |].
    rewrite length_app, firstn_length_le by lia.
    assert (Hnote : length Screen.truncated_note = 50) by reflexivity.
    lia.
  - unfold Screen.shown_content. split.
    + intros [-> | ->]; reflexivity.
    + destruct content as [[| x c] |]; auto.
      cbn [truthy]. destruct (2000 <? length (x :: c)); discriminate.
Qed.

(** ** The requests of one call *)

Section Requests.

Variable W : World.

Lemma search_at_most_five title s urls s' :
  _search_alternative_sources W title s = (Ok urls, s') ->
  length urls <= 5.
Proof.
  rewrite search_unfold.
  destruct (url_quote W (search_text W title)) as [q | e];
    [| intros [= <- _]; simpl; lia].
  cbv zeta.
  destruct (http_get W s (search_url q) 10) as [resp | e];
    [| intros [= <- _]; simpl; lia].
  destruct (_ && _); [intros [= <- _]; simpl; lia |].
  destruct (parse_lxml W (text resp)) as [contents | e];
    [| intros [= <- _]; simpl; lia].
  destruct (collect_urls W (result_links contents) []) as [l | e] eqn:Hc;
    [| intros [= <- _]; simpl; lia].
  intros [= <- _]. eapply collect_urls_length; [| exact Hc]. simpl. lia.
Qed.

Lemma scrape_url_success_nonempty url s t s' :
  _scrape_url W url s = (Ok (Some t), s') -> truthy url = true.
Proof.
  unfold _scrape_url. destruct (truthy url); [reflexivity | discriminate].
Qed.

Lemma long_text_truthy t : 100 <= length t -> truthy t = true.
Proof. destruct t; simpl; [lia | reflexivity]. Qed.

(** The requests of the loop over the alternatives and what it returns. *)
Lemma try_alternatives_trace (url : pystr) (alt_urls : list pystr) :
  forall s r s',
    try_alternatives W url alt_urls s = (r, s') ->
    exists tried rest,
      alt_urls = tried ++ rest /\
      s' = s ++ map page_request (requested url tried) /\
      match r with
      | Ok None => rest = []
      | Ok (Some (content, label)) =>
          exists before c t domain,
            tried = before ++ [c] /\ c <> url /\ c <> [] /\
            content = Some t /\ 100 <= length t /\
            _get_domain W c s' = (Ok domain, s') /\
            label = str "alternative: " ++ domain
      | Raise _ => False
      end.
Proof.
  induction alt_urls as [| alt_url rest IH]; intros s r s';
    cbn [try_alternatives].
  - unfold ret. intros [= <- <-]. exists [], [].
    simpl. now rewrite app_nil_r.
  - assert (Hskip : forall s1 extra,
               s1 = s ++ map page_request extra ->
               requested url [alt_url] = extra ->
               try_alternatives W url rest s1 = (r, s') ->
               exists tried rest0,
                 alt_url :: rest = tried ++ rest0 /\
                 s' = s ++ map page_request (requested url tried) /\
                 match r with
                 | Ok None => rest0 = []
                 | Ok (Some (content, label)) =>
                     exists before c t domain,
                       tried = before ++ [c] /\ c <> url /\ c <> [] /\
                       content = Some t /\ 100 <= length t /\
                       _get_domain W c s' = (Ok domain, s') /\
                       label = str "alternative: " ++ domain
                 | Raise _ => False
                 end).
    { intros s1 extra Hs1 Hextra Hrun.
      destruct (IH _ _ _ Hrun) as (tried & rest0 & -> & -> & Hr).
      exists (alt_url :: tried), rest0. split; [reflexivity |]. split.
      - subst s1. rewrite <- app_assoc, <- map_app. do 2 f_equal.
        rewrite <- Hextra. unfold requested. simpl.
        destruct (negb (eqb alt_url url) && truthy alt_url); reflexivity.
      - destruct r as [[[content label] |] | e]; [| exact Hr | exact Hr].
        destruct Hr as (before & c & t & d & -> & Hr).
        exists (alt_url :: before), c, t, d.
        split; [reflexivity | exact Hr]. }
    destruct (eqb alt_url url) eqn:Heq; cbn [negb].
    + apply (Hskip s []).
      * simpl. now rewrite app_nil_r.
      * unfold requested. simpl. now rewrite Heq.
    + pose proof Heq as Hneq. apply eqb_neq in Hneq.
      unfold bind at 1.
      destruct (scrape_url_returns W alt_url s) as (o & s1 & Hs).
      rewrite Hs. pose proof (scrape_url_log W _ _ _ _ Hs) as Hlog.
      destruct o as [t |].
      * pose proof (scrape_url_some W _ _ _ _ Hs) as Hlen.
        pose proof (scrape_url_success_nonempty _ _ _ _ Hs) as Hurl.
        cbn [truthy_opt]. rewrite (long_text_truthy t Hlen).
        unfold bind, ret.
        destruct (get_domain_returns W alt_url s1) as (d & Hd).
        rewrite Hd. intros [= <- <-].
        exists [alt_url], rest. split; [reflexivity |]. split.
        -- rewrite Hlog, Hurl. unfold requested. simpl.
           now rewrite Heq, Hurl.
        -- exists [], alt_url, t, d. repeat split; auto.
           intros ->. discriminate.
      * cbn [truthy_opt]. apply (Hskip s1 (requested url [alt_url])).
        -- rewrite Hlog. unfold requested. simpl. rewrite Heq. simpl.
           destruct (truthy alt_url); reflexivity.
        -- reflexivity.
Qed.

Lemma requested_app url a b :
  requested url (a ++ b) = requested url a ++ requested url b.
Proof. unfold requested. apply filter_app. Qed.

Lemma requested_one url x :
  x <> url ->
  map page_request (requested url [x])
  = if truthy x then [page_request x] else [].
Proof.
  intros Hx. apply eqb_neq in Hx. unfold requested. cbn [filter].
  rewrite Hx. cbn [negb andb]. destruct (truthy x); reflexivity.
Qed.

Lemma failed_before_skip url s x before :
  x = url ->
  failed_before W url s before -> failed_before W url s (x :: before).
Proof.
  intros -> Hfail pre y post Heq Hy.
  destruct pre as [| p pre]; injection Heq as Hp Heq; [congruence |].
  subst p.
  assert (Hreq : forall l, requested url (url :: l) = requested url l).
  { intros l. unfold requested. cbn [filter]. now rewrite eqb_refl. }
  cbn [app]. rewrite !Hreq. now apply (Hfail pre y post).
Qed.

Lemma failed_before_failure url s s1 x before :
  x <> url ->
  _scrape_url W x s = (Ok None, s1) ->
  failed_before W url s1 before -> failed_before W url s (x :: before).
Proof.
  intros Hx Hs Hfail pre y post Heq Hy.
  assert (Hlog : s1 = s ++ map page_request (requested url [x])).
  { rewrite (requested_one url x Hx). exact (scrape_url_log W _ _ _ _ Hs). }
  assert (Hstate : forall l,
             s ++ map page_request (requested url (x :: l))
             = s1 ++ map page_request (requested url l)).
  { intros l. change (x :: l) with ([x] ++ l).
    now rewrite requested_app, map_app, app_assoc, <- Hlog. }
  destruct pre as [| p pre]; injection Heq as Hp Heq.
  - subst y. cbn [app]. rewrite <- Hlog.
    unfold requested at 1. cbn [filter map]. now rewrite app_nil_r.
  - subst p. cbn [app]. rewrite !Hstate. now apply (Hfail pre y post).
Qed.

(** X2.  The loop over the alternatives is sequential and stops at the
    first success.  It scrapes, in the order of the list, the candidates
    that differ from the primary url, each after the requests of those in
    front of it (an empty candidate costs no request).  When it returns a
    text, every candidate tried before gave none, the text is what
    [_scrape_url] returned for the last candidate requested, it has 100
    characters or more, nothing behind that candidate is requested and the
    label names that candidate's domain.  When it returns nothing, every
    candidate was tried and gave no text. *)
Theorem alternatives_tried_in_order (url : pystr) (alt_urls : list pystr)
        (s : state) (r : result (option (option pystr * pystr)))
        (s' : state) :
  try_alternatives W url alt_urls s = (r, s') ->
  exists tried rest,
    alt_urls = tried ++ rest /\
    s' = s ++ map page_request (requested url tried) /\
    match r with
    | Ok None => rest = [] /\ failed_before W url s tried
    | Ok (Some (content, label)) =>
        exists before c t domain,
          tried = before ++ [c] /\ c <> url /\ c <> [] /\
          failed_before W url s before /\
          _scrape_url W c (s ++ map page_request (requested url before))
          = (Ok (Some t), s') /\
          content = Some t /\ 100 <= length t /\
          _get_domain W c s' = (Ok domain, s') /\
          label = str "alternative: " ++ domain
    | Raise _ => False
    end.
Proof.
  revert s r s'.
  induction alt_urls as [| alt_url rest IH]; intros s r s';
    cbn [try_alternatives].
  - unfold ret. intros [= <- <-]. exists [], []. simpl.
    rewrite app_nil_r. repeat split.
    intros pre x post Heq. destruct pre; discriminate.
  - destruct (eqb alt_url url) eqn:Heq; cbn [negb].
    + apply eqb_eq in Heq. intros Hrun.
      destruct (IH _ _ _ Hrun) as (tried & rest0 & -> & -> & Hr).
      exists (alt_url :: tried), rest0. split; [reflexivity |].
      assert (Hreq : forall l, requested url (alt_url :: l)
                               = requested url l).
      { intros l. unfold requested. cbn [filter]. subst alt_url.
        now rewrite eqb_refl. }
      split; [now rewrite Hreq |].
      destruct r as [[[content label] |] | e]; [| | exact Hr].
      * destruct Hr as (before & c & t & d & -> & Hc & Hne & Hfail
                        & Hscrape & Hrest).
        exists (alt_url :: before), c, t, d.
        split; [reflexivity |]. split; [exact Hc |]. split; [exact Hne |].
        split; [now apply failed_before_skip |].
        split; [| exact Hrest].
        cbn [app]. rewrite Hreq. exact Hscrape.
      * destruct Hr as [-> Hfail]. split; [reflexivity |].
        now apply failed_before_skip.
    + pose proof Heq as Hneq. apply eqb_neq in Hneq.
      unfold bind at 1.
      destruct (scrape_url_returns W alt_url s) as (o & s1 & Hs).
      rewrite Hs.
      assert (Hlog : s1 = s ++ map page_request (requested url [alt_url])).
      { rewrite (requested_one url alt_url Hneq).
        exact (scrape_url_log W _ _ _ _ Hs). }
      destruct o as [t |].
      * pose proof (scrape_url_some W _ _ _ _ Hs) as Hlen.
        pose proof (scrape_url_success_nonempty _ _ _ _ Hs) as Hurl.
        cbn [truthy_opt]. rewrite (long_text_truthy t Hlen).
        unfold bind, ret.
        destruct (get_domain_returns W alt_url s1) as (d & Hd).
        rewrite Hd. intros [= <- <-].
        exists [alt_url], rest. split; [reflexivity |].
        split; [exact Hlog |].
        exists [], alt_url, t, d.
        split; [reflexivity |]. split; [exact Hneq |].
        split; [intros ->; discriminate |].
        split; [intros pre x post H; destruct pre; discriminate |].
        split; [| repeat split; auto].
        unfold requested. cbn [filter map]. now rewrite app_nil_r.
      * cbn [truthy_opt]. intros Hrun.
        destruct (IH _ _ _ Hrun) as (tried & rest0 & -> & -> & Hr).
        exists (alt_url :: tried), rest0. split; [reflexivity |].
        assert (Hstate : forall l,
                   s1 ++ map page_request (requested url l)
                   = s ++ map page_request (requested url (alt_url :: l))).
        { intros l. change (alt_url :: l) with ([alt_url] ++ l).
          rewrite requested_app, map_app, app_assoc. now rewrite <- Hlog. }
        split; [apply Hstate |].
        destruct r as [[[content label] |] | e]; [| | exact Hr].
        -- destruct Hr as (before & c & t & d & -> & Hc & Hne & Hfail
                           & Hscrape & Hrest).
           exists (alt_url :: before), c, t, d.
           split; [reflexivity |]. split; [exact Hc |].
           split; [exact Hne |].
           split; [now apply (failed_before_failure url s s1) |].
           split; [| exact Hrest].
           cbn [app]. rewrite <- Hstate. exact Hscrape.
        -- destruct Hr as [-> Hfail]. split; [reflexivity |].
           now apply (failed_before_failure url s s1).
Qed.

Lemma requested_length url l : length (requested url l) <= length l.
Proof. unfold requested. apply filter_length_le. Qed.

Lemma timeouts_app a b : timeouts (a ++ b) = (timeouts a + timeouts b)%Z.
Proof.
  unfold timeouts. induction a as [| q a IH]; simpl; [reflexivity |].
  rewrite IH. lia.
Qed.

Lemma timeouts_pages l :
  timeouts (map page_request l) = (15 * Z.of_nat (length l))%Z.
Proof.
  unfold timeouts. induction l as [| u l IH]; [reflexivity |].
  cbn [map fold_right length snd page_request]. rewrite IH. lia.
Qed.

(** The three outcomes of [fetch_article]. *)
Lemma fetch_article_cases url title s r s' :
  fetch_article W url title s = (r, s') ->
  (exists t, r = Ok (Some t, str "original") /\ 100 <= length t) \/
  (exists t domain,
      r = Ok (Some t, str "alternative: " ++ domain) /\ 100 <= length t) \/
  r = Ok (None, str "failed").
Proof.
  unfold fetch_article. unfold bind at 1.
  destruct (scrape_url_returns W url s) as (o & s1 & Hs). rewrite Hs.
  destruct o as [t |].
  - pose proof (scrape_url_some W _ _ _ _ Hs) as Hlen.
    cbn [truthy_opt]. rewrite (long_text_truthy t Hlen).
    unfold ret. intros [= <- _]. left. eauto.
  - cbn [truthy_opt].
    assert (Hnone : forall s2,
               bind (ret (A := option (option pystr * pystr)) None)
                    (fun returned =>
                       match returned with
                       | Some r0 => ret r0
                       | None => ret (None, str "failed")
                       end) s2 = (r, s') ->
               r = Ok (None, str "failed")).
    { unfold bind, ret. now intros s2 [= <- _]. }
    destruct title as [t |]; [| intros H; right; right; eauto].
    destruct (truthy t); [| intros H; right; right; eauto].
    unfold bind at 1. unfold bind at 1.
    destruct (search_returns W t s1) as (alts & s2 & ->).
    destruct (try_alternatives W url alts s2) as [ra s3] eqn:Ha.
    destruct (try_alternatives_trace _ _ _ _ _ Ha)
      as (tried & rest & _ & _ & Hr).
    destruct ra as [[[content label] |] | e]; [| | contradiction].
    + destruct Hr as (_ & _ & t0 & d & _ & _ & _ & -> & Hlen & _ & ->).
      unfold ret. intros [= <- _]. right. left.
      exists t0, d. split; [reflexivity | exact Hlen].
    + unfold ret. intros [= <- _]. right. right. reflexivity.
Qed.

(** X1.  One call of [fetch_article] sends at most 7 requests: one for the
    primary url (none when it is empty), then at most one to the search
    engine, then at most 5 for candidates, none of them the primary url;
    their timeouts add up to 100 seconds at most. *)
Theorem fetch_article_request_budget (url : pystr) (title : option pystr)
        (s : state) (r : result (option pystr * pystr)) (s' : state) :
  fetch_article W url title s = (r, s') ->
  exists search tried,
    s' = s ++ (if truthy url then [page_request url] else [])
           ++ search ++ map page_request tried /\
    (search = [] \/ exists q, search = [(search_url q, 10%Z)]) /\
    length tried <= 5 /\
    Forall (fun u => u <> url) tried /\
    length ((if truthy url then [page_request url] else [])
            ++ search ++ map page_request tried) <= 7 /\
    (timeouts ((if truthy url then [page_request url] else [])
               ++ search ++ map page_request tried) <= 100)%Z.
Proof.
  intros Hrun.
  assert (Hshape :
            exists search tried,
              s' = s ++ (if truthy url then [page_request url] else [])
                     ++ search ++ map page_request tried /\
              (search = [] \/ exists q, search = [(search_url q, 10%Z)]) /\
              length tried <= 5 /\
              Forall (fun u => u <> url) tried).
  { revert Hrun. unfold fetch_article. unfold bind at 1.
    destruct (scrape_url_returns W url s) as (o & s1 & Hs). rewrite Hs.
    pose proof (scrape_url_log W _ _ _ _ Hs) as Hlog.
    fold (page_request url) in Hlog.
    assert (Hstop : s' = s1 ->
              exists search tried,
                s' = s ++ (if truthy url then [page_request url] else [])
                       ++ search ++ map page_request tried /\
                (search = [] \/
                 exists q, search = [(search_url q, 10%Z)]) /\
                length tried <= 5 /\
                Forall (fun u => u <> url) tried).
    { intros ->. exists [], []. simpl. rewrite app_nil_r.
      split; [exact Hlog |]. split; [now left |].
      split; [lia | constructor]. }
    destruct (truthy_opt o); [unfold ret; intros [= _ <-]; now apply Hstop |].
    destruct title as [t |];
      [| unfold bind, ret; intros [= _ <-]; now apply Hstop].
    destruct (truthy t);
      [| unfold bind, ret; intros [= _ <-]; now apply Hstop].
    unfold bind at 1. unfold bind at 1.
    destruct (_search_alternative_sources W t s1) as [[alts | e] s2] eqn:Hq;
      [| destruct (search_returns W t s1) as (l & s3 & Hq'); congruence].
    pose proof (search_at_most_five _ _ _ _ Hq) as Hfive.
    apply search_log in Hq.
    destruct (try_alternatives W url alts s2) as [ra s3] eqn:Ha.
    destruct (try_alternatives_trace _ _ _ _ _ Ha)
      as (tried & rest & Halts & Hs3 & Hr).
    intros Hend.
    assert (s' = s3).
    { destruct ra as [[[content label] |] | e]; unfold ret in Hend;
        now injection Hend as _ <-. }
    subst s'.
    exists (match url_quote W (search_text W t) with
            | Ok q => [(search_url q, 10%Z)]
            | Raise _ => []
            end), (requested url tried).
    split; [| split; [| split]].
    - rewrite Hs3, Hq, Hlog. now rewrite <- !app_assoc.
    - destruct (url_quote W (search_text W t)); eauto.
    - pose proof (requested_length url tried) as Hle.
      rewrite Halts, length_app in Hfive. lia.
    - unfold requested. apply Forall_forall. intros u Hu.
      apply filter_In in Hu. destruct Hu as [_ Hu].
      apply andb_true_iff in Hu. destruct Hu as [Hu _].
      apply negb_true_iff, eqb_neq in Hu. exact Hu. }
  destruct Hshape as (search & tried & Hs' & Hsearch & Hfive & Hneq).
  exists search, tried. repeat split; try assumption.
  - rewrite !length_app, length_map.
    destruct (truthy url); destruct Hsearch as [-> | (q & ->)]; simpl; lia.
  - rewrite !timeouts_app, timeouts_pages.
    destruct (truthy url); destruct Hsearch as [-> | (q & ->)];
      unfold timeouts, page_request; cbn [map fold_right snd app];
      lia.
Qed.

(** X3.  When the primary url yields a text, [fetch_article] returns it
    with the label [original] after that one request: no search, no
    alternative. *)
Theorem primary_success_needs_one_request (url : pystr)
        (title : option pystr) (s : state) (t : pystr) (s1 : state) :
  _scrape_url W url s = (Ok (Some t), s1) ->
  fetch_article W url title s = (Ok (Some t, str "original"), s1) /\
  s1 = s ++ [page_request url].
Proof.
  intros Hs. split.
  - unfold fetch_article, bind at 1. rewrite Hs.
    pose proof (scrape_url_some W _ _ _ _ Hs) as Hlen.
    cbn [truthy_opt]. now rewrite (long_text_truthy t Hlen).
  - pose proof (scrape_url_log W _ _ _ _ Hs) as Hlog.
    now rewrite (scrape_url_success_nonempty _ _ _ _ Hs) in Hlog.
Qed.

(** X11.  What the screens show follows the label: the note that the
    article could not be fetched stands in for the body exactly when the
    label is [failed], and a "Content from:" line is shown exactly when
    the label is neither [original] nor [failed]. *)
Theorem screen_follows_label (url : pystr) (title : option pystr)
        (s : state) (content : option pystr) (label : pystr) (s' : state) :
  fetch_article W url title s = (Ok (content, label), s') ->
  (Screen.shown_content content = None <-> label = str "failed") /\
  (Screen.content_from label = None <->
   label = str "original" \/ label = str "failed").
Proof.
  intros Hrun.
  destruct (fetch_article_cases _ _ _ _ _ Hrun)
    as [(t & [= -> ->] & Hlen) | [(t & d & [= -> ->] & Hlen) | [= -> ->]]].
  - unfold Screen.shown_content. rewrite (long_text_truthy t Hlen).
    split; split; try discriminate; auto.
  - unfold Screen.shown_content. rewrite (long_text_truthy t Hlen).
    split; split; try discriminate.
    intros [H | H]; discriminate.
  - split; split; auto.
Qed.

End Requests.

(** ** Removing the unwanted elements *)

Lemma decompose_all_element sel name attrs contents :
  decompose_all sel (Element name attrs contents)
  = Element name attrs (decompose_contents sel contents).
Proof.
  cbn [decompose_all]. f_equal. unfold decompose_contents.
  induction contents as [| c r IH]; [reflexivity |].
  rewrite IH. simpl. destruct (node_matches sel c); reflexivity.
Qed.

Lemma node_matches_decompose sel sel' c :
  node_matches sel' (decompose_all sel c) = node_matches sel' c.
Proof. destruct c; reflexivity. Qed.

Lemma select_element sel name attrs contents :
  select sel (Element name attrs contents)
  = flat_map (fun c => (if node_matches sel c then [c] else [])
                       ++ select sel c) contents.
Proof.
  unfold select. cbn [descendants].
  induction contents as [| c r IH]; [reflexivity |].
  cbn [flat_map]. rewrite filter_app, IH. cbn [filter app].
  destruct (node_matches sel c); reflexivity.
Qed.

Lemma select_nil_element sel name attrs contents :
  select sel (Element name attrs contents) = [] <->
  Forall (fun c => node_matches sel c = false /\ select sel c = []) contents.
Proof.
  rewrite select_element.
  induction contents as [| c r IH]; cbn [flat_map].
  - split; [constructor | reflexivity].
  - split.
    + intros H. apply app_eq_nil in H. destruct H as [Hc Hr].
      apply app_eq_nil in Hc. destruct Hc as [Hm Hs].
      constructor; [| now apply IH].
      split; [| exact Hs]. destruct (node_matches sel c); [discriminate |].
      reflexivity.
    + intros H. inversion H as [| ? ? [Hm Hs] Hr]; subst.
      rewrite Hm, Hs. simpl. now apply IH.
Qed.

(** After the removal for a selector nothing matches it. *)
Lemma select_decompose_same sel n : select sel (decompose_all sel n) = [].
Proof.
  induction n as [s | s | name attrs contents IH] using node_nested_ind;
    try reflexivity.
  rewrite decompose_all_element. apply select_nil_element.
  unfold decompose_contents.
  induction IH as [| c r Hc _ IHr]; [constructor |].
  cbn [flat_map]. destruct (node_matches sel c) eqn:Hm; [exact IHr |].
  constructor; [| exact IHr].
  split; [| exact Hc]. now rewrite node_matches_decompose.
Qed.

(** The removal for one selector adds no match of another. *)
Lemma select_decompose_other sel sel' n :
  select sel' n = [] -> select sel' (decompose_all sel n) = [].
Proof.
  induction n as [s | s | name attrs contents IH] using node_nested_ind;
    try (intros; reflexivity).
  rewrite decompose_all_element, !select_nil_element.
  unfold decompose_contents. intros Hnone.
  induction IH as [| c r Hc _ IHr]; [constructor |].
  inversion Hnone as [| ? ? [Hm Hs] Hr]; subst.
  cbn [flat_map]. destruct (node_matches sel c); [now apply IHr |].
  constructor; [| now apply IHr].
  split; [now rewrite node_matches_decompose | now apply Hc].
Qed.

(** Without a match nothing is removed. *)
Lemma decompose_all_none sel n :
  select sel n = [] -> decompose_all sel n = n.
Proof.
  induction n as [s | s | name attrs contents IH] using node_nested_ind;
    try (intros; reflexivity).
  rewrite decompose_all_element, select_nil_element. intros Hnone.
  f_equal. unfold decompose_contents.
  induction IH as [| c r Hc _ IHr]; [reflexivity |].
  inversion Hnone as [| ? ? [Hm Hs] Hr]; subst.
  cbn [flat_map]. rewrite Hm, Hc, IHr by assumption. reflexivity.
Qed.

Lemma decompose_each_clears (l : list selector) :
  forall soup sel,
    In sel l \/ select sel soup = [] ->
    select sel (fold_left (fun s selector => decompose_all selector s) l soup)
    = [].
Proof.
  induction l as [| x l IH]; intros soup sel H; cbn [fold_left].
  - destruct H as [[] | H]. exact H.
  - apply IH. destruct H as [[-> | Hin] | Hnone].
    + right. apply select_decompose_same.
    + now left.
    + right. now apply select_decompose_other.
Qed.

Lemma decompose_each_none (l : list selector) :
  forall soup,
    (forall sel, In sel l -> select sel soup = []) ->
    fold_left (fun s selector => decompose_all selector s) l soup = soup.
Proof.
  induction l as [| x l IH]; intros soup H; cbn [fold_left]; [reflexivity |].
  rewrite decompose_all_none by (apply H; now left).
  apply IH. intros sel Hin. apply H. now right.
Qed.

(** X4.  After "Remove unwanted elements" no tag of the document matches
    any of the removal selectors (script, style, nav, header, footer,
    aside, the advertisement and sharing classes, ...), so none of them
    can contribute to the extracted text; a document without such tags is
    left as it is, and removing twice changes nothing more. *)
Theorem remove_unwanted_leaves_no_match (soup : node) :
  (forall sel, In sel REMOVE_SELECTORS ->
               select sel (remove_unwanted soup) = []) /\
  ((forall sel, In sel REMOVE_SELECTORS -> select sel soup = []) ->
   remove_unwanted soup = soup) /\
  remove_unwanted (remove_unwanted soup) = remove_unwanted soup.
Proof.
  assert (Hclear : forall n sel, In sel REMOVE_SELECTORS ->
                                 select sel (remove_unwanted n) = []).
  { intros n sel Hin. unfold remove_unwanted.
    apply decompose_each_clears. now left. }
  split; [apply Hclear |]. split.
  - intros Hnone. unfold remove_unwanted. now apply decompose_each_none.
  - unfold remove_unwanted at 1. apply decompose_each_none.
    intros sel Hin. now apply Hclear.
Qed.

(** ** Collapsing blank lines *)

Lemma contains_suffix_false p a b :
  contains p (a ++ b) = false -> contains p b = false.
Proof.
  intros H. destruct (contains p b) eqn:Hb; [| reflexivity].
  apply contains_iff in Hb. destruct Hb as (x & y & ->).
  assert (Hc : contains p (a ++ x ++ p ++ y) = true).
  { apply contains_iff. exists (a ++ x), y. now rewrite <- app_assoc. }
  congruence.
Qed.

Lemma emit_newlines_cases k :
  Re.emit_newlines k = [] \/ Re.emit_newlines k = [newline] \/
  Re.emit_newlines k = [newline; newline].
Proof.
  unfold Re.emit_newlines.
  destruct k as [| [| [| k]]]; simpl; auto.
Qed.

Lemma emit_newlines_length k : length (Re.emit_newlines k) <= k.
Proof.
  unfold Re.emit_newlines. destruct (3 <=? k) eqn:H.
  - apply Nat.leb_le in H. simpl. lia.
  - rewrite repeat_length. lia.
Qed.

Lemma emit_newlines_small k : k < 3 -> Re.emit_newlines k = repeat newline k.
Proof.
  intros H. unfold Re.emit_newlines.
  apply Nat.leb_gt in H. now rewrite H.
Qed.

Lemma no_triple_after_newlines k c rest :
  c <> newline ->
  contains triple_newline rest = false ->
  contains triple_newline (Re.emit_newlines k ++ c :: rest) = false.
Proof.
  intros Hc Hrest. apply N.eqb_neq in Hc.
  assert (Hc' : (newline =? c)%N = false) by (now rewrite N.eqb_sym).
  assert (Hhere : contains triple_newline (c :: rest) = false).
  { cbn [contains triple_newline startswith]. now rewrite Hc', Hrest. }
  destruct (emit_newlines_cases k) as [-> | [-> | ->]];
    cbn [app contains triple_newline startswith] in *;
    rewrite ?N.eqb_refl, ?Hc', ?Hrest; cbn [andb orb];
    rewrite ?Hc', ?Hrest; reflexivity.
Qed.

Lemma collapse_from_no_triple s :
  forall run, contains triple_newline (Re.collapse_from run s) = false.
Proof.
  induction s as [| c s IH]; intros run; cbn [Re.collapse_from].
  - destruct (emit_newlines_cases run) as [-> | [-> | ->]]; reflexivity.
  - destruct (c =? newline)%N eqn:Hc; [apply IH |].
    apply N.eqb_neq in Hc. now apply no_triple_after_newlines.
Qed.

Lemma collapse_from_keeps_text s :
  forall run,
    filter (fun c => negb (c =? newline)%N) (Re.collapse_from run s)
    = filter (fun c => negb (c =? newline)%N) s.
Proof.
  assert (Hemit : forall k,
             filter (fun c => negb (c =? newline)%N) (Re.emit_newlines k)
             = []).
  { intros k. destruct (emit_newlines_cases k) as [-> | [-> | ->]];
      reflexivity. }
  induction s as [| c s IH]; intros run; cbn [Re.collapse_from].
  - apply Hemit.
  - destruct (c =? newline)%N eqn:Hc.
    + rewrite IH. cbn [filter]. now rewrite Hc.
    + rewrite filter_app, Hemit. cbn [filter app]. rewrite Hc. cbn [negb].
      now rewrite IH.
Qed.

Lemma collapse_from_length s :
  forall run, length (Re.collapse_from run s) <= run + length s.
Proof.
  induction s as [| c s IH]; intros run; cbn [Re.collapse_from].
  - pose proof (emit_newlines_length run). simpl. lia.
  - destruct (c =? newline)%N.
    + specialize (IH (S run)). simpl. lia.
    + rewrite length_app. pose proof (emit_newlines_length run).
      specialize (IH 0). simpl in *. lia.
Qed.

(** A text without three newlines in a row, scanned with [run] < 3
    newlines pending, is copied. *)
Lemma collapse_from_fixed s :
  forall run,
    run < 3 ->
    contains triple_newline (repeat newline run ++ s) = false ->
    Re.collapse_from run s = repeat newline run ++ s.
Proof.
  induction s as [| c s IH]; intros run Hrun Hno; cbn [Re.collapse_from].
  - now rewrite emit_newlines_small, app_nil_r.
  - destruct (c =? newline)%N eqn:Hc.
    + apply N.eqb_eq in Hc. subst c.
      assert (Hshift : repeat newline run ++ newline :: s
                       = repeat newline (S run) ++ s).
      { change (newline :: s) with ([newline] ++ s).
        rewrite app_assoc. f_equal.
        change [newline] with (repeat newline 1).
        rewrite <- repeat_app. f_equal. lia. }
      rewrite Hshift in *.
      destruct (Nat.eq_dec run 2) as [-> | Hne].
      * simpl in Hno. discriminate.
      * apply IH; [lia | exact Hno].
    + rewrite emit_newlines_small by assumption. do 2 f_equal.
      apply (IH 0); [lia |]. cbn [repeat app].
      apply contains_suffix_false in Hno.
      apply contains_cons_false in Hno. tauto.
Qed.

(** X5.  After [re.sub(r'\n{3,}', '\n\n', text)] the text has no three
    newlines in a row; the other characters are all kept, in order; the
    text does not grow; a text that had no three newlines in a row is
    returned as it is, so that collapsing twice is collapsing once. *)
Theorem collapse_newlines_leaves_no_triple (s : pystr) :
  contains triple_newline (Re.collapse_newlines s) = false /\
  filter (fun c => negb (c =? newline)%N) (Re.collapse_newlines s)
  = filter (fun c => negb (c =? newline)%N) s /\
  length (Re.collapse_newlines s) <= length s /\
  (contains triple_newline s = false -> Re.collapse_newlines s = s) /\
  Re.collapse_newlines (Re.collapse_newlines s) = Re.collapse_newlines s.
Proof.
  unfold Re.collapse_newlines.
  assert (Hfix : forall t, contains triple_newline t = false ->
                           Re.collapse_from 0 t = t).
  { intros t Ht. apply (collapse_from_fixed t 0); [lia | exact Ht]. }
  split; [apply collapse_from_no_triple |].
  split; [apply collapse_from_keeps_text |].
  split; [apply (collapse_from_length s 0) |].
  split; [apply Hfix |].
  apply Hfix, collapse_from_no_triple.
Qed.

(** ** The text of the paragraphs *)

Lemma last_suffix {A} (p t : list A) (d : A) :
  t <> [] -> last (p ++ t) d = last t d.
Proof.
  intros Ht. induction p as [| x p IH]; [reflexivity |].
  simpl. destruct (p ++ t) eqn:Hpt; [| exact IH].
  apply app_eq_nil in Hpt. tauto.
Qed.

Lemma last_default {A} (l : list A) (d d' : A) :
  l <> [] -> last l d = last l d'.
Proof.
  induction l as [| x [| y l] IH]; intros H; [congruence | reflexivity |].
  change (last (x :: y :: l) d) with (last (y :: l) d).
  change (last (x :: y :: l) d') with (last (y :: l) d').
  apply IH. discriminate.
Qed.

Lemma last_rev_head {A} (x : A) (l : list A) (d : A) :
  last (rev (x :: l)) d = x.
Proof. simpl. apply last_last. Qed.

Section Paragraphs.

Variable W : World.

Lemma lstrip_head s c r :
  lstrip W s = c :: r -> is_space W c = false.
Proof.
  induction s as [| x s IH]; [discriminate |].
  cbn [lstrip]. destruct (is_space W x) eqn:Hx; [exact IH |].
  now intros [= <- _].
Qed.

Lemma lstrip_suffix s : exists p, s = p ++ lstrip W s.
Proof.
  induction s as [| x s (p & IH)]; [now exists [] |].
  cbn [lstrip]. destruct (is_space W x).
  - exists (x :: p). simpl. now f_equal.
  - now exists [].
Qed.

(** [strip] leaves no white space at either end. *)
Lemma strip_trimmed s : trimmed W (strip W s).
Proof.
  unfold strip.
  destruct (lstrip W (rev (lstrip W s))) as [| c t] eqn:Ht; [exact I |].
  pose proof (lstrip_head _ _ _ Ht) as Hc.
  destruct (lstrip_suffix (rev (lstrip W s))) as (p & Hp).
  rewrite Ht in Hp.
  destruct (lstrip W s) as [| x l] eqn:Hl;
    [destruct p; discriminate |].
  pose proof (lstrip_head _ _ _ Hl) as Hx.
  assert (Hlast : forall d, last (c :: t) d = x).
  { intros d. rewrite <- (last_suffix p (c :: t) d) by discriminate.
    rewrite <- Hp. apply last_rev_head. }
  assert (Hrev : rev (c :: t) <> []).
  { intros H. apply (f_equal (@length _)) in H.
    rewrite length_rev in H. discriminate. }
  destruct (rev (c :: t)) as [| y r] eqn:Hr; [congruence |].
  assert (Hy : y = x).
  { specialize (Hlast y). rewrite <- (rev_involutive (c :: t)), Hr in Hlast.
    now rewrite last_rev_head in Hlast. }
  assert (Hend : forall d, last (y :: r) d = c).
  { intros d. rewrite <- Hr. apply last_rev_head. }
  unfold trimmed. rewrite Hend, Hy. split; assumption.
Qed.

Lemma join_empty_separator l : join [] l = concat l.
Proof.
  induction l as [| x [| y l] IH]; [reflexivity | |].
  - simpl. now rewrite app_nil_r.
  - change (join [] (x :: y :: l)) with (x ++ [] ++ join [] (y :: l)).
    rewrite IH. reflexivity.
Qed.

Lemma trimmed_app a b :
  a <> [] -> trimmed W a -> trimmed W b -> trimmed W (a ++ b).
Proof.
  intros Ha Hta Htb. destruct a as [| x a]; [congruence |].
  destruct b as [| y b]; [now rewrite app_nil_r |].
  destruct Hta as [Hx _]. destruct Htb as [_ Hy].
  unfold trimmed. cbn [app]. split; [exact Hx |].
  change (x :: a ++ y :: b) with ((x :: a) ++ y :: b).
  rewrite last_suffix by discriminate.
  now rewrite (last_default (y :: b) x y) by discriminate.
Qed.

(** The text of one paragraph has no white space at either end. *)
Lemma get_text_strip_trimmed p : trimmed W (get_text_strip W [] p).
Proof.
  unfold get_text_strip. rewrite join_empty_separator.
  induction (all_strings p) as [| x l IH]; [exact I |].
  cbn [map filter].
  destruct (truthy (strip W x)) eqn:Hx; [| exact IH].
  cbn [concat]. apply trimmed_app; [| apply strip_trimmed | exact IH].
  destruct (strip W x); [discriminate | discriminate].
Qed.

Lemma paragraph_texts_spec ps :
  Forall (fun b => 20 < length b /\ trimmed W b /\
                   exists p, In p ps /\ b = get_text_strip W [] p)
         (paragraph_texts W ps).
Proof.
  induction ps as [| p ps IH]; [constructor |].
  cbn [paragraph_texts].
  assert (Hrest : Forall (fun b => 20 < length b /\ trimmed W b /\
                                   exists q, In q (p :: ps) /\
                                             b = get_text_strip W [] q)
                         (paragraph_texts W ps)).
  { eapply Forall_impl; [| exact IH].
    intros b (Hlen & Htrim & q & Hq & ->).
    split; [exact Hlen |]. split; [exact Htrim |].
    exists q. split; [now right | reflexivity]. }
  destruct (truthy (get_text_strip W [] p) && (20 <? length _)) eqn:Hk;
    [| exact Hrest].
  apply andb_true_iff in Hk. destruct Hk as [_ Hk].
  apply Nat.ltb_lt in Hk.
  constructor; [| exact Hrest].
  split; [exact Hk |]. split; [apply get_text_strip_trimmed |].
  exists p. split; [now left | reflexivity].
Qed.

Lemma paragraph_texts_short ps :
  Forall (fun p => length (get_text_strip W [] p) <= 20) ps ->
  paragraph_texts W ps = [].
Proof.
  induction 1 as [| p ps Hp _ IH]; [reflexivity |].
  cbn [paragraph_texts].
  apply Nat.ltb_ge in Hp. rewrite Hp, andb_false_r. exact IH.
Qed.

(** X6.  When the container holds paragraphs, headings of level 2 or 3 or
    block quotes, [_extract_text] returns only their texts, joined by
    blank lines: each block is the stripped text of one of them, is longer
    than 20 characters and has no white space at either end; any other
    text of the container is left out.  When none of them is longer than
    20 characters the result is empty, whatever else the container
    holds. *)
Theorem extract_text_of_paragraphs (element : node) :
  find_all [str "p"; str "h2"; str "h3"; str "blockquote"] element <> [] ->
  _extract_text W element
  = join [newline; newline]
         (paragraph_texts W
            (find_all [str "p"; str "h2"; str "h3"; str "blockquote"]
                      element)) /\
  Forall (fun b =>
            20 < length b /\ trimmed W b /\
            exists p,
              In p (find_all [str "p"; str "h2"; str "h3"; str "blockquote"]
                             element) /\
              b = get_text_strip W [] p)
         (paragraph_texts W
            (find_all [str "p"; str "h2"; str "h3"; str "blockquote"]
                      element)) /\
  (Forall (fun p => length (get_text_strip W [] p) <= 20)
          (find_all [str "p"; str "h2"; str "h3"; str "blockquote"]
                    element) ->
   _extract_text W element = []).
Proof.
  intros Hps.
  assert (Heq : _extract_text W element
                = join [newline; newline]
                    (paragraph_texts W
                       (find_all [str "p"; str "h2"; str "h3";
                                  str "blockquote"] element))).
  { unfold _extract_text.
    destruct (find_all _ element) as [| p ps]; [congruence | reflexivity]. }
  split; [exact Heq |]. split; [apply paragraph_texts_spec |].
  intros Hshort. rewrite Heq, paragraph_texts_short by assumption.
  reflexivity.
Qed.

End Paragraphs.

(** ** The filter on plain URLs *)

Section PlainUrls.

Variable W : World.

Lemma lower_ascii url :
  forallb is_ascii url = true -> lower W url = map ascii_lower url.
Proof.
  intros H. unfold lower.
  rewrite <- (app_nil_r url) at 1.
  rewrite lower_from_ascii by assumption. simpl. now rewrite app_nil_r.
Qed.

(** X8.  On a URL of ASCII characters [_is_news_url] rejects exactly the
    URLs in which one of the twelve patterns occurs somewhere, in any
    letter case: anywhere in the text, not only as the host or as a whole
    path segment. *)
Theorem is_news_url_of_ascii_url (url : pystr) :
  forallb is_ascii url = true ->
  (_is_news_url W url = false <->
   exists pattern, In pattern skip_patterns /\ occurs_nocase pattern url).
Proof.
  intros Hascii. split.
  - unfold _is_news_url. intros H. apply negb_false_iff in H.
    apply existsb_exists in H. destruct H as (p & Hin & Hc).
    exists p. split; [exact Hin |].
    rewrite lower_ascii in Hc by assumption.
    apply contains_iff in Hc. destruct Hc as (a & b & Hc).
    apply map_eq_app in Hc. destruct Hc as (a' & r & -> & _ & Hr).
    apply map_eq_app in Hr. destruct Hr as (m & b' & -> & Hm & _).
    exists a', m, b'. split; [reflexivity | exact Hm].
  - intros (p & Hin & Hocc).
    destruct (_is_news_url W url) eqn:Hn; [| reflexivity].
    exfalso. exact (news_url_no_pattern W url p Hn Hin Hocc).
Qed.

End PlainUrls.

(** ** The selection of the terminal UI *)

Section Navigation.

Variable article : Type.

Lemma press_articles (u : UI.ui article) k :
  UI.articles article (UI.press article u k) = UI.articles article u.
Proof.
  destruct k as [| | c]; cbn [UI.press].
  - unfold UI.navigate_up. destruct (_ <? _)%Z; reflexivity.
  - unfold UI.navigate_down. destruct (_ <? _)%Z; reflexivity.
  - unfold UI.set_category. destruct (existsb _ _); reflexivity.
Qed.

Lemma press_selection_ok (u : UI.ui article) k :
  UI.selection_ok article u -> UI.selection_ok article (UI.press article u k).
Proof.
  unfold UI.selection_ok. intros [Hlow Hhigh].
  destruct k as [| | c]; cbn [UI.press].
  - unfold UI.navigate_up.
    destruct (0 <? UI.selected_index article u)%Z eqn:H; [| tauto].
    apply Z.ltb_lt in H. cbn. lia.
  - unfold UI.navigate_down.
    destruct (UI.selected_index article u <? _)%Z eqn:H; [| tauto].
    apply Z.ltb_lt in H. cbn. lia.
  - unfold UI.set_category. destruct (existsb _ _); [| tauto].
    cbn. lia.
Qed.

Lemma selection_ok_selected (u : UI.ui article) :
  UI.selection_ok article u ->
  UI.articles article u <> [] ->
  exists a, UI.get_selected_article article u = Some a.
Proof.
  unfold UI.selection_ok, UI.get_selected_article. intros [Hlow Hhigh] Hne.
  assert (Hlen : (UI.selected_index article u
                  < Z.of_nat (length (UI.articles article u)))%Z).
  { destruct Hhigh as [H | H]; [exact H |].
    rewrite H. destruct (UI.articles article u); [congruence |].
    simpl length. lia. }
  assert (Hcond : ((0 <=? UI.selected_index article u)
                   && (UI.selected_index article u
                       <? Z.of_nat (length (UI.articles article u))))%Z
                  = true).
  { apply andb_true_iff. split; [now apply Z.leb_le | now apply Z.ltb_lt]. }
  rewrite Hcond.
  destruct (nth_error (UI.articles article u)
                      (Z.to_nat (UI.selected_index article u))) eqn:Hn;
    [eauto |].
  apply nth_error_None in Hn. lia.
Qed.

(** X12.  The keys of the navigation keep the selection on an article:
    starting from a selection inside the list (or 0 on an empty list, as
    after [__init__]), any sequence of up, down and category keys leaves
    the list untouched and the selection inside it, so that
    [get_selected_article] returns an article whenever there is one. *)
Theorem navigation_keeps_selection (u : UI.ui article)
        (keys : list UI.key) :
  UI.selection_ok article u ->
  UI.selection_ok article (fold_left (UI.press article) keys u) /\
  UI.articles article (fold_left (UI.press article) keys u)
  = UI.articles article u /\
  (UI.articles article u <> [] ->
   exists a,
     UI.get_selected_article article (fold_left (UI.press article) keys u)
     = Some a).
Proof.
  revert u. induction keys as [| k keys IH]; intros u Hok; cbn [fold_left].
  - split; [exact Hok |]. split; [reflexivity |].
    now apply selection_ok_selected.
  - destruct (IH (UI.press article u k) (press_selection_ok u k Hok))
      as (H1 & H2 & H3).
    rewrite press_articles in H2, H3. auto.
Qed.

(** X13.  Down and up undo each other away from the ends of the list, and
    do nothing at the ends: down on the last article and up on the first
    leave the state as it is. *)
Theorem navigate_round_trip (u : UI.ui article) :
  ((0 <= UI.selected_index article u)%Z ->
   (UI.selected_index article u
    < Z.of_nat (length (UI.articles article u)) - 1)%Z ->
   UI.navigate_up article (UI.navigate_down article u) = u) /\
  ((0 < UI.selected_index article u)%Z ->
   (UI.selected_index article u
    < Z.of_nat (length (UI.articles article u)))%Z ->
   UI.navigate_down article (UI.navigate_up article u) = u) /\
  ((UI.selected_index article u
    >= Z.of_nat (length (UI.articles article u)) - 1)%Z ->
   UI.navigate_down article u = u) /\
  ((UI.selected_index article u <= 0)%Z -> UI.navigate_up article u = u).
Proof.
  destruct u as [cat idx arts]. unfold UI.navigate_up, UI.navigate_down.
  cbn [UI.selected_index UI.articles UI.current_category].
  repeat split.
  - intros Hlow Hhigh.
    assert (H1 : (idx <? Z.of_nat (length arts) - 1)%Z = true)
      by now apply Z.ltb_lt.
    rewrite H1. cbn [UI.selected_index UI.articles UI.current_category].
    assert (H2 : (0 <? idx + 1)%Z = true) by (apply Z.ltb_lt; lia).
    rewrite H2. f_equal. lia.
  - intros Hlow Hhigh.
    assert (H1 : (0 <? idx)%Z = true) by now apply Z.ltb_lt.
    rewrite H1. cbn [UI.selected_index UI.articles UI.current_category].
    assert (H2 : (idx - 1 <? Z.of_nat (length arts) - 1)%Z = true)
      by (apply Z.ltb_lt; lia).
    rewrite H2. f_equal. lia.
  - intros H.
    assert (H1 : (idx <? Z.of_nat (length arts) - 1)%Z = false)
      by (apply Z.ltb_ge; lia).
    now rewrite H1.
  - intros H.
    assert (H1 : (0 <? idx)%Z = false) by (apply Z.ltb_ge; lia).
    now rewrite H1.
Qed.

End Navigation.

(** ** The stored API key *)

Section ApiKey.

Variable W : World.


(** A readable file that holds a key is read back. *)
Lemma stored_key_after_save key s :
  Config.config_file s = key_file key ->
  Config.stored_key s
  = (inl (if truthy key then Some (Py.VStr key) else None), s).
Proof.
  unfold key_file. intros Hfile.
  unfold Config.stored_key, Config.exists_. rewrite Hfile.
  unfold Config.except_decode_or_io, Config.and_then, Config.load.
  rewrite Hfile. unfold Py.get. cbn [Py.lookup].
  assert (Hk : eqb (str "api_key") (str "api_key") = true) by reflexivity.
  rewrite Hk. cbn [Py.truth]. destruct (truthy key); reflexivity.
Qed.

Lemma stored_key_no_document s :
  no_document (Config.config_file s) ->
  Config.stored_key s = (inl None, s).
Proof.
  unfold Config.stored_key, Config.exists_, Config.except_decode_or_io,
    Config.and_then, Config.load.
  intros [H | [H | H]]; rewrite H; reflexivity.
Qed.

Lemma get_api_key_stored key s :
  key <> [] ->
  Config.config_file s = key_file key ->
  Config.get_api_key W s = (inl (Py.VStr key), s).
Proof.
  intros Hkey Hfile. unfold Config.get_api_key, Config.and_then.
  rewrite (stored_key_after_save key) by assumption.
  destruct key; [congruence | reflexivity].
Qed.

(** What [save_api_key] does, by the state of the file. *)
Lemma save_api_key_cases key s :
  (can_write s /\
   exists s1,
     Config.save_api_key key s = (inl tt, s1) /\
     Config.stdin s1 = Config.stdin s /\
     Config.stdout s1 = Config.stdout s /\
     ((readable_after_write s /\ Config.config_file s1 = key_file key) \/
      (~ readable_after_write s /\
       Config.config_file s1 = Config.Unreadable))) \/
  (~ can_write s /\ Config.save_api_key key s = (inr Py.IOError, s)).
Proof.
  unfold can_write, readable_after_write, Config.save_api_key, Config.dump,
    key_file.
  destruct (Config.config_file s) as [| | | doc] eqn:Hfile.
  - destruct (Config.creatable s); [| right; split; [discriminate | easy]].
    left. split; [reflexivity |]. eexists. split; [reflexivity |].
    split; [reflexivity |]. split; [reflexivity |].
    destruct (Config.created_readable s); cbn.
    + left. split; reflexivity.
    + right. split; [discriminate | reflexivity].
  - destruct (Config.writable s); [| right; split; [discriminate | easy]].
    left. split; [reflexivity |]. exists s. split; [reflexivity |].
    split; [reflexivity |]. split; [reflexivity |].
    right. split; [tauto | exact Hfile].
  - destruct (Config.writable s); [| right; split; [discriminate | easy]].
    left. split; [reflexivity |]. eexists. split; [reflexivity |].
    split; [reflexivity |]. split; [reflexivity |].
    left. split; [exact I | reflexivity].
  - destruct (Config.writable s); [| right; split; [discriminate | easy]].
    left. split; [reflexivity |]. eexists. split; [reflexivity |].
    split; [reflexivity |]. split; [reflexivity |].
    left. split; [exact I | reflexivity].
Qed.

(** X14.  A saved key is found again when the file can be read.
    [save_api_key] succeeds exactly when the file that exists may be
    opened for writing, or a missing one may be created; otherwise it
    raises [IOError] and changes nothing.  After a successful save of a
    non-empty key to a file that can then be read, [get_api_key] returns
    that key without printing anything or reading a line; an empty key is
    written too but is not accepted when read back; and a file that could
    not be read before the save (or is created unreadable) still cannot,
    so that no key is found. *)
Theorem saved_key_is_found (key : pystr) (s : Config.sys) :
  (can_write s <-> exists s1, Config.save_api_key key s = (inl tt, s1)) /\
  (forall e s1, Config.save_api_key key s = (inr e, s1) ->
                e = Py.IOError /\ s1 = s) /\
  (forall s1,
      Config.save_api_key key s = (inl tt, s1) ->
      Config.stdin s1 = Config.stdin s /\
      Config.stdout s1 = Config.stdout s /\
      (readable_after_write s ->
       Config.config_file s1 = key_file key /\
       (key <> [] ->
        Config.get_api_key W s1 = (inl (Py.VStr key), s1)) /\
       (key = [] -> Config.stored_key s1 = (inl None, s1))) /\
      (~ readable_after_write s ->
       Config.config_file s1 = Config.Unreadable /\
       Config.stored_key s1 = (inl None, s1))).
Proof.
  destruct (save_api_key_cases key s)
    as [(Hw & s1 & Hsave & Hin & Hout & Hfile) | (Hw & Hsave)].
  - split; [split; eauto |].
    split; [intros e s2 H; congruence |].
    intros s2 H. assert (s2 = s1) by congruence. subst s2.
    split; [exact Hin |]. split; [exact Hout |].
    destruct Hfile as [(Hr & Hfile) | (Hr & Hfile)].
    + split; [| tauto]. intros _. split; [exact Hfile |]. split.
      * intros Hkey. now apply get_api_key_stored.
      * intros ->. now rewrite (stored_key_after_save []).
    + split; [tauto |]. intros _. split; [exact Hfile |].
      apply stored_key_no_document. right. now left.
  - split; [split; [tauto | intros (s1 & H); congruence] |].
    split; [intros e s1 H; split; congruence |].
    intros s1 H. congruence.
Qed.



(** X16.  A file that holds a JSON document other than an object (a
    list, a string, a number, [null], a boolean) is not treated as a
    missing key: [get_api_key] raises [AttributeError] on it, without
    asking for a key; and a file that is no text raises
    [UnicodeDecodeError]. *)
Theorem odd_config_file_raises (s : Config.sys) :
  (forall v,
      Config.config_file s = Config.Text (Some v) ->
      (forall d, v <> Py.VDict d) ->
      Config.get_api_key W s = (inr Py.AttributeError, s)) /\
  (Config.config_file s = Config.Undecodable ->
   Config.get_api_key W s = (inr Py.UnicodeDecodeError, s)).
Proof.
  split.
  - intros v Hfile Hv.
    unfold Config.get_api_key, Config.and_then, Config.stored_key,
      Config.exists_, Config.except_decode_or_io, Config.load.
    rewrite Hfile. unfold Config.and_then. rewrite Hfile.
    destruct v; try reflexivity. now destruct (Hv d).
  - intros Hfile.
    unfold Config.get_api_key, Config.and_then, Config.stored_key,
      Config.exists_, Config.except_decode_or_io, Config.load.
    rewrite Hfile. unfold Config.and_then. rewrite Hfile. reflexivity.
Qed.


End ApiKey.

(** ** Formatted articles *)

Section Formatting.

Variable format_time : pystr -> option pystr.

Lemma published_of_cases article :
  (published_ok article /\
   exists v,
     Api.published_of format_time article = inl v /\
     forall p,
       Py.lookup article (str "publishedAt") = Some (Py.VStr p) ->
       format_time (replace (str "Z") (str "+00:00") p) = None ->
       v = Py.VStr p) \/
  (~ published_ok article /\
   Api.published_of format_time article = inr Py.AttributeError).
Proof.
  unfold Api.published_of, published_ok, Py.get.
  destruct (Py.lookup article (str "publishedAt")) as [published |].
  - destruct published as [| [|] | [|] lit | p | [| x l] | [| x d0]];
      cbn [Py.truth];
      try (left; split; [exact I || reflexivity |];
           eexists; split; [reflexivity |]; intros p0 [= <-]; fail);
      try (left; split; [exact I || reflexivity |];
           eexists; split; [reflexivity |]; intros p0 H; discriminate);
      try (right; split; [intros H; discriminate | reflexivity]).
    destruct p as [| c p]; cbn [truthy].
    + left. split; [exact I |]. eexists. split; [reflexivity |].
      now intros p0 [= <-].
    + left. split; [exact I |].
      destruct (format_time _) as [shown |] eqn:Hf.
      * eexists. split; [reflexivity |]. intros p0 [= <-] H. congruence.
      * eexists. split; [reflexivity |]. now intros p0 [= <-].
  - cbn [Py.truth truthy]. left. split; [exact I |].
    eexists. split; [reflexivity |]. intros p0 H. discriminate.
Qed.

Lemma source_of_cases article :
  (source_ok article /\ exists v, Api.source_of article = inl v) \/
  (~ source_ok article /\ Api.source_of article = inr Py.AttributeError).
Proof.
  unfold Api.source_of, source_ok, Py.get.
  destruct (Py.lookup article (str "source")) as [v |].
  - destruct v;
      try (right; split; [intros H; exact H | reflexivity]).
    left. split; [exact I |]. eexists. reflexivity.
  - left. split; [exact I |]. eexists. reflexivity.
Qed.

(** X17.  [format_article] returns a dict exactly when the article's
    [source] is missing or an object and its [publishedAt] is missing,
    false or a string; otherwise it raises [AttributeError].  The dict has
    the seven keys title, description, source, url, published, author,
    content, in this order; title, description, url, author and content
    are the article's values, the default standing in only for a missing
    key (a [null] stays [None]); a timestamp that cannot be parsed is
    passed on unchanged. *)
Theorem format_article_result (article : Py.dict) :
  (source_ok article /\ published_ok article <->
   exists d, Api.format_article format_time article = inl d) /\
  (forall e, Api.format_article format_time article = inr e ->
             e = Py.AttributeError) /\
  (forall d,
      Api.format_article format_time article = inl d ->
      map fst d = [ str "title"; str "description"; str "source";
                    str "url"; str "published"; str "author";
                    str "content" ] /\
      (forall key default,
          In (key, default) copied_fields ->
          Py.lookup d key = Some (Py.get article key (Py.VStr default))) /\
      (forall p,
          Py.lookup article (str "publishedAt") = Some (Py.VStr p) ->
          format_time (replace (str "Z") (str "+00:00") p) = None ->
          Py.lookup d (str "published") = Some (Py.VStr p))).
Proof.
  unfold Api.format_article.
  destruct (published_of_cases article)
    as [(Hp & published & -> & Hsame) | (Hp & ->)].
  - destruct (source_of_cases article) as [(Hs & source & ->) | (Hs & ->)].
    + split; [split; [eauto | tauto] |].
      split; [intros e; discriminate |].
      intros d [= <-]. split; [reflexivity |]. split.
      * intros key default Hin. simpl in Hin.
        destruct Hin as [[= <- <-] | [[= <- <-] | [[= <- <-]
                        | [[= <- <-] | [[= <- <-] | []]]]]];
          reflexivity.
      * intros p Hlook Hnone. rewrite (Hsame p Hlook Hnone). reflexivity.
    + split; [split; [tauto | intros (d & Hd); discriminate] |].
      split; [now intros e [= <-] | intros d; discriminate].
  - split; [split; [tauto | intros (d & Hd); discriminate] |].
    split; [now intros e [= <-] | intros d; discriminate].
Qed.

End Formatting.

(** ** When a page gives nothing *)

Section ScrapeFailures.

Variable W : World.

(** X18.  [_scrape_url] answers [None] after its one request when the
    request raises, when the status is 4xx or 5xx whatever the body, and
    when both parsers raise.  When only lxml raises, the tree of
    html.parser is used in its place, with the same removal, selection and
    floor of 100 characters. *)
Theorem scrape_url_failures (url : pystr) (s : state) :
  truthy url = true ->
  (forall e, http_get W s url 15 = Raise e ->
             _scrape_url W url s = (Ok None, s ++ [page_request url])) /\
  (forall resp,
      http_get W s url 15 = Ok resp ->
      ((400 <=? status_code resp) && (status_code resp <? 600))%Z = true ->
      _scrape_url W url s = (Ok None, s ++ [page_request url])) /\
  (forall resp e,
      http_get W s url 15 = Ok resp ->
      ((400 <=? status_code resp) && (status_code resp <? 600))%Z = false ->
      parse_lxml W (text resp) = Raise e ->
      (forall e', parse_html_parser W (text resp) = Raise e' ->
                  _scrape_url W url s = (Ok None, s ++ [page_request url])) /\
      (forall contents,
          parse_html_parser W (text resp) = Ok contents ->
          _scrape_url W url s
          = (Ok (let found :=
                   _extract_text W
                     (choose_content (remove_unwanted (document contents)))
                 in if length found <? 100 then None else Some found),
             s ++ [page_request url]))).
Proof.
  intros Hurl.
  assert (Hstart : forall resp,
             http_get W s url 15 = Ok resp ->
             _scrape_url W url s
             = match (raise_for_status resp ;; extract_markup W (text resp))
                       (s ++ [page_request url]) with
               | (Ok a, s') => (Ok a, s')
               | (Raise _, s') => ret None s'
               end).
  { intros resp Hget. unfold _scrape_url. rewrite Hurl. cbn [negb].
    unfold try_except, bind at 1, session_get. now rewrite Hget. }
  split; [| split].
  - intros e Hget. unfold _scrape_url. rewrite Hurl. cbn [negb].
    unfold try_except, bind at 1, session_get. now rewrite Hget.
  - intros resp Hget Hstatus. rewrite (Hstart resp Hget).
    unfold bind, raise_for_status. rewrite Hstatus. reflexivity.
  - intros resp e Hget Hstatus Hlxml. rewrite (Hstart resp Hget).
    unfold bind at 1, raise_for_status. rewrite Hstatus. unfold ret at 1.
    unfold extract_markup, bind, try_except, lift. rewrite Hlxml.
    split.
    + intros e' ->. reflexivity.
    + intros contents ->. cbv zeta.
      destruct (length _ <? 100); reflexivity.
Qed.

End ScrapeFailures.

(** ** Instances of the further properties *)

Lemma request_budget_in_the_small_world :
  exists search tried,
    [ (Demo.missing_url, 15%Z);
      (search_url (str "Tram%20line%20council%20votes%20news"), 10%Z);
      (Demo.other_url, 15%Z) ]
    = [] ++ (if truthy Demo.missing_url
             then [page_request Demo.missing_url] else [])
         ++ search ++ map page_request tried /\
    (search = [] \/ exists q, search = [(search_url q, 10%Z)]) /\
    length tried <= 5 /\
    Forall (fun u => u <> Demo.missing_url) tried /\
    length ((if truthy Demo.missing_url
             then [page_request Demo.missing_url] else [])
            ++ search ++ map page_request tried) <= 7 /\
    (timeouts ((if truthy Demo.missing_url
                then [page_request Demo.missing_url] else [])
               ++ search ++ map page_request tried) <= 100)%Z.
Proof.
  apply (fetch_article_request_budget
           Demo.world Demo.missing_url (Some Demo.title) []
           (Ok (Some Demo.paragraph, str "alternative: myexample.com"))).
  vm_compute. reflexivity.
Defined.

Lemma alternatives_in_the_small_world :
  exists tried rest,
    [Demo.missing_url; Demo.other_url; str "httpd.apache.org/docs/"]
    = tried ++ rest /\
    [(Demo.other_url, 15%Z)]
    = [] ++ map page_request (requested Demo.missing_url tried) /\
    exists before c t domain,
      tried = before ++ [c] /\ c <> Demo.missing_url /\ c <> [] /\
      failed_before Demo.world Demo.missing_url [] before /\
      _scrape_url Demo.world c
        ([] ++ map page_request (requested Demo.missing_url before))
      = (Ok (Some t), [(Demo.other_url, 15%Z)]) /\
      Some Demo.paragraph = Some t /\ 100 <= length t /\
      _get_domain Demo.world c [(Demo.other_url, 15%Z)]
      = (Ok domain, [(Demo.other_url, 15%Z)]) /\
      str "alternative: myexample.com" = str "alternative: " ++ domain.
Proof.
  apply (alternatives_tried_in_order
           Demo.world Demo.missing_url
           [Demo.missing_url; Demo.other_url; str "httpd.apache.org/docs/"]
           []
           (Ok (Some (Some Demo.paragraph,
                      str "alternative: myexample.com")))
           [(Demo.other_url, 15%Z)]).
  vm_compute. reflexivity.
Defined.

Lemma primary_success_in_the_small_world :
  fetch_article Demo.world Demo.article_url (Some Demo.title) []
  = (Ok (Some Demo.paragraph, str "original"), [(Demo.article_url, 15%Z)]) /\
  [(Demo.article_url, 15%Z)] = [] ++ [page_request Demo.article_url].
Proof.
  apply (primary_success_needs_one_request
           Demo.world Demo.article_url (Some Demo.title) []).
  vm_compute. reflexivity.
Defined.

Lemma clean_document_is_kept :
  remove_unwanted (document Demo.teaser_page) = document Demo.teaser_page.
Proof.
  apply (proj1 (proj2 (remove_unwanted_leaves_no_match
                         (document Demo.teaser_page)))).
  intros sel Hin. unfold REMOVE_SELECTORS in Hin.
  repeat (destruct Hin as [<- | Hin]; [vm_compute; reflexivity |]).
  destruct Hin.
Defined.

Lemma double_newline_is_kept :
  Re.collapse_newlines (str "a" ++ [newline; newline] ++ str "b")
  = str "a" ++ [newline; newline] ++ str "b".
Proof.
  apply (proj1 (proj2 (proj2 (proj2
           (collapse_newlines_leaves_no_triple
              (str "a" ++ [newline; newline] ++ str "b")))))).
  vm_compute. reflexivity.
Defined.

Lemma paragraphs_of_the_sample_article :
  _extract_text Demo.world Sample.article_element
  = join [newline; newline]
         (paragraph_texts Demo.world
            (find_all [str "p"; str "h2"; str "h3"; str "blockquote"]
                      Sample.article_element)) /\
  Forall (fun b =>
            20 < length b /\ trimmed Demo.world b /\
            exists p,
              In p (find_all [str "p"; str "h2"; str "h3"; str "blockquote"]
                             Sample.article_element) /\
              b = get_text_strip Demo.world [] p)
         (paragraph_texts Demo.world
            (find_all [str "p"; str "h2"; str "h3"; str "blockquote"]
                      Sample.article_element)) /\
  (Forall (fun p => length (get_text_strip Demo.world [] p) <= 20)
          (find_all [str "p"; str "h2"; str "h3"; str "blockquote"]
                    Sample.article_element) ->
   _extract_text Demo.world Sample.article_element = []).
Proof.
  apply (extract_text_of_paragraphs Demo.world Sample.article_element).
  vm_compute. discriminate.
Defined.

Lemma domain_of_a_www_host :
  _get_domain Demo.world (str "https://www.example.com/story") []
  = (Ok (str "example.com"), []).
Proof.
  apply (proj1 (proj2 (get_domain_of_ordinary_host
                         Demo.world (str "https://www.example.com/story")
                         []))
               (str "example.com")).
  - vm_compute. reflexivity.
  - vm_compute. reflexivity.
Defined.

Lemma plain_url_in_the_small_world :
  _is_news_url Demo.world (str "https://example.com/searchlight") = false <->
  exists pattern,
    In pattern skip_patterns /\
    occurs_nocase pattern (str "https://example.com/searchlight").
Proof.
  apply (is_news_url_of_ascii_url
           Demo.world (str "https://example.com/searchlight")).
  vm_compute. reflexivity.
Defined.

Lemma label_on_the_screen :
  Screen.content_from (str "alternative: " ++ str "myexample.com")
  = Some (str "myexample.com") /\
  Screen.content_from (str "original") = None /\
  Screen.content_from (str "failed") = None.
Proof.
  apply (content_from_label (str "myexample.com")).
  vm_compute. reflexivity.
Defined.

Lemma short_body_is_shown_whole :
  Screen.shown_content (Some Demo.paragraph) = Some Demo.paragraph.
Proof.
  apply (proj1 (shown_content_is_bounded (Some Demo.paragraph))
               Demo.paragraph eq_refl).
  - discriminate.
  - vm_compute. lia.
Defined.

Lemma screen_in_the_small_world :
  (Screen.shown_content (Some Demo.paragraph) = None <->
   str "alternative: myexample.com" = str "failed") /\
  (Screen.content_from (str "alternative: myexample.com") = None <->
   str "alternative: myexample.com" = str "original" \/
   str "alternative: myexample.com" = str "failed").
Proof.
  apply (screen_follows_label
           Demo.world Demo.missing_url (Some Demo.title) []
           (Some Demo.paragraph) (str "alternative: myexample.com")
           [ (Demo.missing_url, 15%Z);
             (search_url (str "Tram%20line%20council%20votes%20news"), 10%Z);
             (Demo.other_url, 15%Z) ]).
  vm_compute. reflexivity.
Defined.

Lemma keys_on_the_sample_screen :
  UI.selection_ok nat
    (fold_left (UI.press nat)
               [UI.KeyDown; UI.KeyDown; UI.KeyDown; UI.KeyUp;
                UI.KeyCategory (str "3")]
               Sample.screen) /\
  UI.articles nat
    (fold_left (UI.press nat)
               [UI.KeyDown; UI.KeyDown; UI.KeyDown; UI.KeyUp;
                UI.KeyCategory (str "3")]
               Sample.screen)
  = UI.articles nat Sample.screen /\
  (UI.articles nat Sample.screen <> [] ->
   exists a,
     UI.get_selected_article nat
       (fold_left (UI.press nat)
                  [UI.KeyDown; UI.KeyDown; UI.KeyDown; UI.KeyUp;
                   UI.KeyCategory (str "3")]
                  Sample.screen)
     = Some a).
Proof.
  apply (navigation_keeps_selection nat Sample.screen).
  unfold UI.selection_ok. simpl. lia.
Defined.

Lemma down_then_up_on_the_sample_screen :
  UI.navigate_up nat (UI.navigate_down nat Sample.screen) = Sample.screen /\
  UI.navigate_down nat (UI.navigate_up nat Sample.screen) = Sample.screen.
Proof.
  split.
  - apply (proj1 (navigate_round_trip nat Sample.screen)); simpl; lia.
  - apply (proj1 (proj2 (navigate_round_trip nat Sample.screen)));
      simpl; lia.
Defined.

Lemma saved_key_on_the_sample_machine :
  (Config.config_file
     (Config.with_file Sample.machine (key_file (str "abc123")) true)
   = key_file (str "abc123") /\
   (str "abc123" <> [] ->
    Config.get_api_key Demo.world
      (Config.with_file Sample.machine (key_file (str "abc123")) true)
    = (inl (Py.VStr (str "abc123")),
       Config.with_file Sample.machine (key_file (str "abc123")) true)) /\
   (str "abc123" = [] ->
    Config.stored_key
      (Config.with_file Sample.machine (key_file (str "abc123")) true)
    = (inl None,
       Config.with_file Sample.machine (key_file (str "abc123")) true))) /\
  (Config.config_file Sample.write_only_machine = Config.Unreadable /\
   Config.stored_key Sample.write_only_machine
   = (inl None, Sample.write_only_machine)).
Proof.
  split.
  - apply (proj1 (proj2 (proj2
             (proj2 (proj2 (saved_key_is_found
                              Demo.world (str "abc123") Sample.machine))
                    (Config.with_file Sample.machine
                                      (key_file (str "abc123")) true)
                    eq_refl)))).
    exact eq_refl.
  - apply (proj2 (proj2 (proj2
             (proj2 (proj2 (saved_key_is_found
                              Demo.world (str "abc123")
                              Sample.write_only_machine))
                    Sample.write_only_machine eq_refl)))).
    intros H. exact H.
Defined.


Lemma list_in_the_config_file :
  Config.get_api_key Demo.world Sample.odd_machine
  = (inr Py.AttributeError, Sample.odd_machine).
Proof.
  apply (proj1 (odd_config_file_raises Demo.world Sample.odd_machine)
               (Py.VList []) eq_refl).
  intros d. discriminate.
Defined.

Lemma sample_article_is_formatted :
  exists d, Api.format_article Sample.no_time Sample.article = inl d.
Proof.
  apply (proj1 (proj1 (format_article_result
                         Sample.no_time Sample.article))).
  split; exact I.
Defined.

Lemma second_parser_in_the_sample_world :
  _scrape_url Sample.world Demo.article_url []
  = (Ok (let found :=
           _extract_text Sample.world
             (choose_content
                (remove_unwanted (document Demo.article_page)))
         in if length found <? 100 then None else Some found),
     [] ++ [page_request Demo.article_url]).
Proof.
  apply (proj2 (proj2 (proj2 (scrape_url_failures
                                Sample.world Demo.article_url [] eq_refl))
                      (mkResponse 200 Sample.fragile_markup) ParserError
                      eq_refl eq_refl eq_refl)).
  reflexivity.
Defined.

